(** * MachineAdapter: the state-machine registry of pewpi-shared

    A shallow embedding of [src/pewpi-shared/machines/adapter.js] and the
    properties of its operations.

    - The three [Map]s of the adapter that are keyed by machine identifier
      are finite maps; the per-machine transition table, whose iteration
      order [reset] observes, is an insertion-ordered association list
      with the behaviour of [Map.prototype.set].
    - A method that can throw is a function from the adapter to a
      completion and the adapter it leaves.
    - [Date.now()] is an argument [now] of the methods that read it.
    - State labels, events and identifiers are strings, as the JSDoc of
      the methods types them; contexts, patches and change notifications
      are objects.
    - Handlers and listeners are functions of their arguments that return
      or throw; they do not call back into the adapter.  What the adapter
      does to them and to the console is recorded: [calls] lists the
      listener invocations, [console] the lines written. *)

From Stdlib Require Import Ascii String ZArith.
From stdpp Require Import gmap strings list fin_maps.

Open Scope string_scope.
Open Scope nat_scope.
Open Scope list_scope.

Set Warnings "-register-all".

(** ** JavaScript values *)

(** The values that contexts, payloads and change notifications carry.
    Objects are finite maps from property names to values. *)
Inductive value :=
  | VUndefined
  | VNull
  | VBool (b : bool)
  | VNum (n : Z)
  | VStr (s : string)
  | VObj (o : gmap string value).

(** A machine context, a context patch, the extra data of a handler and a
    change notification are all plain objects. *)
Abbreviation object := (gmap string value).

(** [{ ...a, ...b }]: the properties of [b] win, the other properties of
    [a] are kept. *)
Definition spread (a b : object) : object := b ∪ a.

(** What calling a JavaScript function amounts to for its caller: it
    returns a value or throws. *)
Inductive completion (A : Type) :=
  | Returns (a : A)
  | Throws (e : string).
Arguments Returns {A} a.
Arguments Throws {A} e.

(** ** [Array.prototype.slice] with one argument *)

(** [arr.slice(start)]: a negative [start] counts from the end, and the
    resulting index is clamped to the array. *)
Definition slice_from {A} (start : Z) (arr : list A) : list A :=
  let len := Z.of_nat (length arr) in
  let k := if (start <? 0)%Z then Z.max (len + start) 0 else Z.min start len in
  drop (Z.to_nat k) arr.

(** [a || b] on strings: the empty string is the only falsy string, and a
    missing property reads as [undefined]. *)
Definition or_string (a : option string) (b : string) : string :=
  match a with
  | Some s => if decide (s = "") then b else s
  | None => b
  end.

(** ** [Map]: insertion-ordered association lists *)

Section JsMap.
Context {A : Type}.

Fixpoint map_get (key : string) (m : list (string * A)) : option A :=
  match m with
  | [] => None
  | (k, v) :: rest => if decide (k = key) then Some v else map_get key rest
  end.

(** [m.set(key, v)] replaces the value of an existing key where it
    stands and appends a new key at the end. *)
Fixpoint map_set (key : string) (v : A) (m : list (string * A))
  : list (string * A) :=
  match m with
  | [] => [(key, v)]
  | (k, x) :: rest =>
      if decide (k = key) then (k, v) :: rest
      else (k, x) :: map_set key v rest
  end.

Definition map_keys (m : list (string * A)) : list string := fst <$> m.
End JsMap.

(** ** [String.prototype.split] *)

(** [s.split(sep)] for a one-character separator; the result is never
    empty. *)
Fixpoint split (sep : ascii) (s : string) : list string :=
  match s with
  | EmptyString => [EmptyString]
  | String c rest =>
      if decide (c = sep) then EmptyString :: split sep rest
      else match split sep rest with
           | seg :: segs => String c seg :: segs
           | [] => [String c EmptyString]
           end
  end.

(** ** Data model *)

(** One entry of [machine.history]. *)
Record history_entry := {
  h_fromState : string;
  h_toState : string;
  h_event : string;
  h_payload : value;
  h_timestamp : Z
}.

(** The object built by [registerMachine] and stored in [this.machines]. *)
Record machine := {
  id : string;
  currentState : string;
  states : object;
  context : object;
  history : list history_entry;
  created : Z
}.

(** What a transition handler returns: [result.state], [result.context]
    and [result.data], each possibly absent. *)
Record handler_result := {
  r_state : option string;
  r_context : option object;
  r_data : option object
}.

(** What a call of a handler hands back to [send]: an object, or
    [undefined] or [null], on which the first property read of [send]
    raises a [TypeError].  A primitive has none of the three properties
    and reads as the object without them. *)
Inductive returned :=
  | Result (result : handler_result)
  | Undefined
  | Null.

(** A transition handler is called as [transition(machine.context, payload)];
    it returns or throws. *)
Definition handler := object → value → completion returned.

(** [toStateOrHandler]: a target label or a function. *)
Inductive transition :=
  | Literal (toState : string)
  | Handler (h : handler).

Abbreviation transition_table := (list (string * transition)).

(** A state-change callback.  Functions are compared by identity in
    [indexOf]; [l_ref] stands for that identity, [l_body] for what a call
    does to its caller: return or throw. *)
Record listener := {
  l_ref : nat;
  l_body : object → completion unit
}.

(** [config] of [registerMachine]; [cfg_transitions] lists the nested
    object in the order [Object.entries] enumerates it. *)
Record config := {
  cfg_initialState : option string;
  cfg_states : option object;
  cfg_context : option object;
  cfg_transitions : option (list (string * list (string * transition)))
}.

(** The adapter ([this]) together with what it does to its collaborators:
    the lines written to the console and the callback invocations, both
    oldest first. *)
Record adapter := {
  machines : gmap string machine;
  transitions : gmap string transition_table;
  stateCallbacks : gmap string (list listener);
  console : list (string * string);
  calls : list (nat * object)
}.

(** [new MachineAdapter()] *)
Definition constructor : adapter :=
  {| machines := ∅; transitions := ∅; stateCallbacks := ∅;
     console := []; calls := [] |}.

Definition with_machines (f : gmap string machine → gmap string machine)
  (a : adapter) : adapter :=
  {| machines := f (machines a); transitions := transitions a;
     stateCallbacks := stateCallbacks a; console := console a;
     calls := calls a |}.

Definition with_transitions
  (f : gmap string transition_table → gmap string transition_table)
  (a : adapter) : adapter :=
  {| machines := machines a; transitions := f (transitions a);
     stateCallbacks := stateCallbacks a; console := console a;
     calls := calls a |}.

Definition with_stateCallbacks
  (f : gmap string (list listener) → gmap string (list listener))
  (a : adapter) : adapter :=
  {| machines := machines a; transitions := transitions a;
     stateCallbacks := f (stateCallbacks a); console := console a;
     calls := calls a |}.

(** [console.warn] and [console.error]: the level and the line. *)
Definition log (level msg : string) (a : adapter) : adapter :=
  {| machines := machines a; transitions := transitions a;
     stateCallbacks := stateCallbacks a;
     console := console a ++ [(level, msg)]; calls := calls a |}.

(** A callback is entered with [changeData]. *)
Definition called (cb : listener) (changeData : object) (a : adapter)
  : adapter :=
  {| machines := machines a; transitions := transitions a;
     stateCallbacks := stateCallbacks a; console := console a;
     calls := calls a ++ [(l_ref cb, changeData)] |}.

(** ** Methods that may throw

    A method call yields a completion and the adapter as the call left
    it: an exception does not undo what was done before it. *)
Definition M (A : Type) : Type := adapter → completion A * adapter.

Definition ret {A} (x : A) : M A := fun a => (Returns x, a).
Definition throw {A} (e : string) : M A := fun a => (Throws e, a).
Definition bind {A B} (m : M A) (k : A → M B) : M B := fun a =>
  match m a with
  | (Returns x, a') => k x a'
  | (Throws e, a') => (Throws e, a')
  end.
Definition get : M adapter := fun a => (Returns a, a).
Definition modify (f : adapter → adapter) : M unit := fun a => (Returns tt, f a).

Notation "'let*' x ':=' m 'in' k" := (bind m (fun x => k))
  (at level 10, x name, m at level 100, k at level 200).
Notation "m ;;; k" := (bind m (fun _ => k))
  (at level 100, right associativity).

(** [xs.forEach(f)] for an [f] that may throw. *)
Fixpoint forEach {A} (f : A → M unit) (xs : list A) : M unit :=
  match xs with
  | [] => ret tt
  | x :: rest => f x ;;; forEach f rest
  end.

(** ** The methods of [MachineAdapter] *)

(** [registerTransition(machineId, fromState, event, toStateOrHandler)] *)
Definition registerTransition (machineId fromState event : string)
  (toStateOrHandler : transition) : M unit :=
  let* this := get in
  match transitions this !! machineId with
  | None => throw ("Machine " +:+ machineId +:+ " not registered")
  | Some machineTransitions =>
      let key := fromState +:+ ":" +:+ event in
      modify (with_transitions
                <[machineId := map_set key toStateOrHandler machineTransitions]>)
  end.

(** [registerMachine(machineId, config)]; [now] is what [Date.now()]
    reads. *)
Definition registerMachine (now : Z) (machineId : string) (cfg : config)
  : M machine :=
  let* this := get in
  (if decide (is_Some (machines this !! machineId))
   then modify (log "warn" ("Machine " +:+ machineId
                              +:+ " already registered, overwriting"))
   else ret tt) ;;;
  let machine :=
    {| id := machineId;
       currentState := or_string (cfg_initialState cfg) "idle";
       states := default ∅ (cfg_states cfg);
       context := default ∅ (cfg_context cfg);
       history := [];
       created := now |} in
  modify (with_machines <[machineId := machine]>) ;;;
  modify (with_transitions <[machineId := []]>) ;;;
  modify (with_stateCallbacks <[machineId := []]>) ;;;
  match cfg_transitions cfg with
  | Some entries =>
      forEach (fun '(from, transitions) =>
        forEach (fun '(event, to) =>
          registerTransition machineId from event to) transitions) entries
  | None => ret tt
  end ;;;
  ret machine.

(** The object [send] returns; the no-transition result has no [context]
    property. *)
Record send_result := {
  success : bool;
  res_fromState : string;
  res_toState : string;
  res_event : string;
  res_context : option object
}.

Definition set_context (c : object) (m : machine) : machine :=
  {| id := id m; currentState := currentState m; states := states m;
     context := c; history := history m; created := created m |}.

Definition set_currentState (s : string) (m : machine) : machine :=
  {| id := id m; currentState := s; states := states m;
     context := context m; history := history m; created := created m |}.

Definition set_history (h : list history_entry) (m : machine) : machine :=
  {| id := id m; currentState := currentState m; states := states m;
     context := context m; history := h; created := created m |}.

(** One turn of the [forEach] in [_notifyStateChange]: the callback is
    called inside its own [try], and what it throws goes to
    [console.error].  A callback is taken not to call back into the
    adapter. *)
Definition notify_one (machineId : string) (changeData : object)
  (callback : listener) : M unit :=
  modify (called callback changeData) ;;;
  match l_body callback changeData with
  | Returns _ => ret tt
  | Throws error =>
      modify (log "error" ("Error in state change callback for "
                             +:+ machineId +:+ ": " +:+ error))
  end.

(** [_notifyStateChange(machineId, changeData)] *)
Definition _notifyStateChange (machineId : string) (changeData : object)
  : M unit :=
  let* this := get in
  match stateCallbacks this !! machineId with
  | Some callbacks => forEach (notify_one machineId changeData) callbacks
  | None => ret tt
  end.

(** The object literal passed to [_notifyStateChange] by [send]. *)
Definition change_data (fromState toState event : string) (payload : value)
  (context : object) (transitionData : object) : object :=
  spread
    (<["context" := VObj context]>
       (<["payload" := payload]>
          (<["event" := VStr event]>
             (<["toState" := VStr toState]>
                {["fromState" := VStr fromState]}))))
    transitionData.

(** Lines 83-91 of [send]: no usable transition. *)
Definition no_transition (machineId : string) (machine : machine)
  (event : string) : M send_result :=
  modify (log "warn" ("No transition for " +:+ machineId +:+ " from "
                        +:+ currentState machine +:+ " on " +:+ event)) ;;;
  ret {| success := false;
         res_fromState := currentState machine;
         res_toState := currentState machine;
         res_event := event;
         res_context := None |}.

(** Lines 111-124 of [send] on the machine object [m]: the state is
    set, the record pushed and the history cut back to its last 100. *)
Definition transitioned (now : Z) (m : machine)
  (fromState toState event : string) (payload : value) : machine :=
  let pushed :=
    history m ++
      [{| h_fromState := fromState; h_toState := toState; h_event := event;
          h_payload := payload; h_timestamp := now |}] in
  set_history
    (if decide (100 < length pushed) then slice_from (-100) pushed else pushed)
    (set_currentState toState m).

(** Lines 111-142 of [send]: [machine] is the machine object as the
    handler branch left it, [fromState] the state read before. *)
Definition execute_transition (now : Z) (machineId : string)
  (machine : machine) (fromState toState event : string) (payload : value)
  (transitionData : object) : M send_result :=
  let machine := transitioned now machine fromState toState event payload in
  modify (with_machines <[machineId := machine]>) ;;;
  _notifyStateChange machineId
    (change_data fromState toState event payload (context machine)
       transitionData) ;;;
  ret {| success := true;
         res_fromState := fromState;
         res_toState := toState;
         res_event := event;
         res_context := Some (context machine) |}.

(** The default parameter [payload = null]: an omitted or [undefined]
    argument reads as [null]. *)
Definition or_null (payload : value) : value :=
  match payload with
  | VUndefined => VNull
  | _ => payload
  end.

(** [send(machineId, event, payload = null)].  The test [!transition]
    holds when the table has no entry under the key and when the entry is
    the empty label; a handler is never falsy. *)
Definition send (now : Z) (machineId event : string) (payload : value)
  : M send_result :=
  let payload := or_null payload in
  let* this := get in
  match machines this !! machineId with
  | None => throw ("Machine " +:+ machineId +:+ " not found")
  | Some machine =>
      match transitions this !! machineId with
      | None =>
          throw "TypeError: Cannot read properties of undefined (reading 'get')"
      | Some machineTransitions =>
          let key := currentState machine +:+ ":" +:+ event in
          let fromState := currentState machine in
          match map_get key machineTransitions with
          | None => no_transition machineId machine event
          | Some (Literal toState) =>
              if decide (toState = "") then no_transition machineId machine event
              else execute_transition now machineId machine fromState toState
                     event payload ∅
          | Some (Handler transition) =>
              match transition (context machine) payload with
              | Throws e => throw e
              | Returns Undefined =>
                  throw ("TypeError: Cannot read properties of undefined "
                           +:+ "(reading 'state')")
              | Returns Null =>
                  throw ("TypeError: Cannot read properties of null "
                           +:+ "(reading 'state')")
              | Returns (Result result) =>
                  let toState := or_string (r_state result) (currentState machine) in
                  let transitionData := default ∅ (r_data result) in
                  let machine :=
                    match r_context result with
                    | Some patch =>
                        set_context (spread (context machine) patch) machine
                    | None => machine
                    end in
                  execute_transition now machineId machine fromState toState
                    event payload transitionData
              end
          end
      end
  end.

(** [getState(machineId)]; [None] is [null]. *)
Definition getState (machineId : string) (this : adapter) : option string :=
  currentState <$> machines this !! machineId.

(** [getContext(machineId)] *)
Definition getContext (machineId : string) (this : adapter) : option object :=
  context <$> machines this !! machineId.

(** [updateContext(machineId, updates)] *)
Definition updateContext (machineId : string) (updates : object)
  (this : adapter) : adapter :=
  match machines this !! machineId with
  | Some machine =>
      with_machines
        <[machineId := set_context (spread (context machine) updates) machine]>
        this
  | None => this
  end.

(** [isInState(machineId, state)] *)
Definition isInState (machineId state : string) (this : adapter) : bool :=
  match machines this !! machineId with
  | Some machine => bool_decide (currentState machine = state)
  | None => false
  end.

(** [getHistory(machineId, limit = 10)]; [None] is an omitted [limit]. *)
Definition getHistory (machineId : string) (limit : option Z)
  (this : adapter) : list history_entry :=
  let limit := default 10%Z limit in
  match machines this !! machineId with
  | None => []
  | Some machine => slice_from (- limit) (history machine)
  end.

(** [onStateChange(machineId, callback)] for a [callback] that is a
    function. *)
Definition onStateChange (machineId : string) (callback : listener)
  (this : adapter) : adapter :=
  match stateCallbacks this !! machineId with
  | Some callbacks =>
      with_stateCallbacks <[machineId := callbacks ++ [callback]]> this
  | None => this
  end.

(** [callbacks.indexOf(callback)] followed by [splice(index, 1)] when the
    callback was found. *)
Fixpoint remove_first (callback : listener) (callbacks : list listener)
  : list listener :=
  match callbacks with
  | [] => []
  | cb :: rest =>
      if decide (l_ref cb = l_ref callback) then rest
      else cb :: remove_first callback rest
  end.

(** [offStateChange(machineId, callback)] *)
Definition offStateChange (machineId : string) (callback : listener)
  (this : adapter) : adapter :=
  match stateCallbacks this !! machineId with
  | Some callbacks =>
      with_stateCallbacks <[machineId := remove_first callback callbacks]> this
  | None => this
  end.

(** The state [reset] picks: the first segment of the first key of the
    transition table, or ['idle'].  [split] yields at least one segment,
    so the destructuring [[state]] always binds a string. *)
Definition reset_state (machineTransitions : option transition_table)
  : string :=
  match machineTransitions with
  | Some table =>
      match map_keys table with
      | key :: _ => default "idle" (head (split ":" key))
      | [] => "idle"
      end
  | None => "idle"
  end.

(** [reset(machineId, clearHistory = false)] *)
Definition reset (machineId : string) (clearHistory : option bool)
  (this : adapter) : adapter :=
  let clearHistory := default false clearHistory in
  match machines this !! machineId with
  | None => this
  | Some machine =>
      let initialState := reset_state (transitions this !! machineId) in
      let machine := set_context ∅ (set_currentState initialState machine) in
      let machine :=
        if clearHistory then set_history [] machine else machine in
      with_machines <[machineId := machine]> this
  end.

(** [unregisterMachine(machineId)] *)
Definition unregisterMachine (machineId : string) (this : adapter)
  : adapter :=
  with_stateCallbacks (delete machineId)
    (with_transitions (delete machineId)
       (with_machines (delete machineId) this)).

(** ** Sequences of method calls *)

(** A call of one of the mutating methods, with its arguments and, where
    the method reads the clock, the time it reads. *)
Inductive call :=
  | RegisterMachine (now : Z) (machineId : string) (cfg : config)
  | RegisterTransition (machineId fromState event : string)
      (toStateOrHandler : transition)
  | Send (now : Z) (machineId event : string) (payload : value)
  | UpdateContext (machineId : string) (updates : object)
  | OnStateChange (machineId : string) (callback : listener)
  | OffStateChange (machineId : string) (callback : listener)
  | Reset (machineId : string) (clearHistory : option bool)
  | UnregisterMachine (machineId : string).

(** The adapter after a call, whether the call returned or threw. *)
Definition exec (c : call) (this : adapter) : adapter :=
  match c with
  | RegisterMachine now machineId cfg =>
      (registerMachine now machineId cfg this).2
  | RegisterTransition machineId fromState event t =>
      (registerTransition machineId fromState event t this).2
  | Send now machineId event payload =>
      (send now machineId event payload this).2
  | UpdateContext machineId updates => updateContext machineId updates this
  | OnStateChange machineId callback => onStateChange machineId callback this
  | OffStateChange machineId callback => offStateChange machineId callback this
  | Reset machineId clearHistory => reset machineId clearHistory this
  | UnregisterMachine machineId => unregisterMachine machineId this
  end.

Definition run (cs : list call) (this : adapter) : adapter :=
  foldl (fun a c => exec c a) this cs.

(** The adapters a program can hold: a new one after any calls. *)
Definition reachable (this : adapter) : Prop :=
  ∃ cs, this = run cs constructor.

(** The three maps have the same keys. *)
Definition consistent (this : adapter) : Prop :=
  dom (transitions this) = dom (machines this)
  ∧ dom (stateCallbacks this) = dom (machines this).

(** No history is longer than the cap. *)
Definition bounded (this : adapter) : Prop :=
  ∀ machineId machine,
    machines this !! machineId = Some machine →
    length (history machine) ≤ 100.

(** ** Vocabulary of the properties and worked examples *)

(** The invocations that notifying [callbacks] with [changeData] adds to
    the record of calls. *)
Definition invocations (changeData : object) (callbacks : list listener)
  : list (nat * object) :=
  (fun cb => (l_ref cb, changeData)) <$> callbacks.

(** The effect of a method on the adapter's own three maps. *)
Definition same_maps (a b : adapter) : Prop :=
  machines b = machines a
  ∧ transitions b = transitions a
  ∧ stateCallbacks b = stateCallbacks a.

Definition turnstile_config : config :=
  {| cfg_initialState := Some "locked";
     cfg_states := None;
     cfg_context := None;
     cfg_transitions :=
       Some [("locked", [("COIN", Literal "unlocked")]);
             ("unlocked", [("PUSH", Literal "locked")])] |}.

Definition turnstile : adapter :=
  run [RegisterMachine 0 "turnstile" turnstile_config] constructor.

Definition turnstile_machine : machine :=
  {| id := "turnstile"; currentState := "locked"; states := ∅;
     context := ∅; history := []; created := 0 |}.

Definition turnstile_table : transition_table :=
  [("locked:COIN", Literal "unlocked"); ("unlocked:PUSH", Literal "locked")].

(** [patch] merged into [old]: the keys of the patch take the patch's
    value, every other key keeps its value. *)
Definition merged (old patch new : object) : Prop :=
  ∀ key,
    new !! key = match patch !! key with
                 | Some v => Some v
                 | None => old !! key
                 end.

(** [(context, payload) => ({ state: payload.amount > 0 ? 'paid' : 'cart' })] *)
Definition pay : handler := fun _ payload =>
  match payload with
  | VObj o =>
      Returns (Result
                 {| r_state :=
                      Some (match o !! "amount" with
                            | Some (VNum n) =>
                                if (0 <? n)%Z then "paid" else "cart"
                            | _ => "cart"
                            end);
                    r_context := None; r_data := None |})
  | VNull | VUndefined =>
      Throws "TypeError: Cannot read properties of null (reading 'amount')"
  | _ =>
      Returns (Result {| r_state := Some "cart"; r_context := None;
                         r_data := None |})
  end.

(** [() => ({ context: { a: 1 } })] *)
Definition note : handler := fun _ _ =>
  Returns (Result {| r_state := None;
                     r_context := Some {["a" := VNum 1]};
                     r_data := None |}).

Definition checkout_config : config :=
  {| cfg_initialState := Some "cart";
     cfg_states := None;
     cfg_context := Some {["b" := VNum 2]};
     cfg_transitions :=
       Some [("cart", [("PAY", Handler pay); ("NOTE", Handler note)])] |}.

Definition checkout : adapter :=
  run [RegisterMachine 0 "checkout" checkout_config] constructor.

Definition checkout_machine : machine :=
  {| id := "checkout"; currentState := "cart"; states := ∅;
     context := {["b" := VNum 2]}; history := []; created := 0 |}.

Definition checkout_table : transition_table :=
  [("cart:PAY", Handler pay); ("cart:NOTE", Handler note)].

(** The lines that notifying [callbacks] writes to the console: one
    error line for each callback that throws. *)
Definition reported (machineId : string) (changeData : object)
  (callbacks : list listener) : list (string * string) :=
  omap (fun cb =>
          match l_body cb changeData with
          | Returns _ => None
          | Throws error =>
              Some ("error", "Error in state change callback for "
                               +:+ machineId +:+ ": " +:+ error)
          end) callbacks.

(** A table entry that [send] acts on: a non-empty target label, or a
    handler that returns an object when called with the context and the
    payload. *)
Definition usable (t : transition) (m : machine) (payload : value) : Prop :=
  match t with
  | Literal toState => toState ≠ ""
  | Handler h => ∃ result, h (context m) payload = Returns (Result result)
  end.

(** The turnstile with two listeners: the first throws, the second
    returns. *)
Definition boom : listener :=
  {| l_ref := 1; l_body := fun _ => Throws "boom" |}.

Definition quiet : listener :=
  {| l_ref := 2; l_body := fun _ => Returns tt |}.

Definition watched : adapter :=
  run [OnStateChange "turnstile" boom; OnStateChange "turnstile" quiet]
    turnstile.

(** The entries that [registerMachine] registers from the nested
    [config.transitions], in the order of the two [forEach] loops, each
    under the key [registerTransition] builds for it. *)
Definition flat_entries (entries : list (string * list (string * transition)))
  : list (string * transition) :=
  entries ≫= (fun '(from, transitions) =>
    (fun '(event, to) => (from +:+ ":" +:+ event, to)) <$> transitions).

(** [table] after setting the given keys one after the other. *)
Definition set_all (table : transition_table)
  (entries : list (string * transition)) : transition_table :=
  foldl (fun tbl '(key, to) => map_set key to tbl) table entries.

(** The machine object [registerMachine] creates. *)
Definition new_machine (now : Z) (machineId : string) (cfg : config)
  : machine :=
  {| id := machineId;
     currentState := or_string (cfg_initialState cfg) "idle";
     states := default ∅ (cfg_states cfg);
     context := default ∅ (cfg_context cfg);
     history := [];
     created := now |}.

(** What a loop of [registerTransition] calls leaves: only the table of
    the machine differs. *)
Definition only_table (machineId : string) (table : transition_table)
  (a b : adapter) : Prop :=
  machines b = machines a
  ∧ transitions b = <[machineId := table]> (transitions a)
  ∧ stateCallbacks b = stateCallbacks a
  ∧ calls b = calls a
  ∧ console b = console a.

(** The record [send] pushes for a transition of [m] to [toState]. *)
Definition pushed_entry (now : Z) (m : machine) (toState event : string)
  (payload : value) : history_entry :=
  {| h_fromState := currentState m; h_toState := toState; h_event := event;
     h_payload := or_null payload; h_timestamp := now |}.

(** The last [n] elements of a list, in the order of the list. *)
Definition last_n {A} (n : nat) (l : list A) : list A :=
  drop (length l - n) l.

(** A machine that stays in its one state, and [n] sends to it at the
    times 1 to [n]. *)
Definition loop_config : config :=
  {| cfg_initialState := Some "a";
     cfg_states := None;
     cfg_context := None;
     cfg_transitions := Some [("a", [("GO", Literal "a")])] |}.

Definition loop_calls (n : nat) : list call :=
  RegisterMachine 0 "loop" loop_config
    :: ((fun i => Send (Z.of_nat i) "loop" "GO" VNull) <$> seq 1 n).

Definition loop_entry (i : nat) : history_entry :=
  {| h_fromState := "a"; h_toState := "a"; h_event := "GO";
     h_payload := VNull; h_timestamp := Z.of_nat i |}.

Definition loop_machine (entries : list history_entry) : machine :=
  {| id := "loop"; currentState := "a"; states := ∅; context := ∅;
     history := entries; created := 0 |}.

(** Whether a label contains the character [c]. *)
Fixpoint contains (c : ascii) (s : string) : bool :=
  match s with
  | EmptyString => false
  | String c' rest => bool_decide (c' = c) || contains c rest
  end.

(** A machine whose only source state has a colon in its label. *)
Definition colon_config : config :=
  {| cfg_initialState := Some "a:b";
     cfg_states := None;
     cfg_context := None;
     cfg_transitions := Some [("a:b", [("GO", Literal "c")])] |}.

Definition colon : adapter :=
  run [RegisterMachine 0 "m" colon_config] constructor.

(** A machine without transitions, and the two registrations whose keys
    coincide. *)
Definition bare_config : config :=
  {| cfg_initialState := Some "a"; cfg_states := None; cfg_context := None;
     cfg_transitions := None |}.

Definition bare : adapter :=
  run [RegisterMachine 0 "m" bare_config] constructor.

Definition collided : adapter :=
  run [RegisterTransition "m" "a:b" "c" (Literal "X");
       RegisterTransition "m" "a" "b:c" (Literal "Y")] bare.

(** ** Vocabulary of the further properties *)

(** The notification of a transition without handler data: the five
    properties of the object literal in [send]. *)
Definition plain_change (fromState toState event : string) (payload : value)
  (context : object) : object :=
  <["context" := VObj context]>
    (<["payload" := payload]>
       (<["event" := VStr event]>
          (<["toState" := VStr toState]>
             {["fromState" := VStr fromState]}))).

(** No callback of the list is the function [callback]. *)
Definition unlisted (callback : listener) (callbacks : list listener) : Prop :=
  Forall (fun cb => l_ref cb ≠ l_ref callback) callbacks.

(** The keys of the entries are pairwise different. *)
Definition distinct_keys (entries : list (string * transition)) : Prop :=
  NoDup (fst <$> entries).

Definition bare_machine : machine :=
  {| id := "m"; currentState := "a"; states := ∅; context := ∅;
     history := []; created := 0 |}.

(** The bare machine with a transition to the empty label. *)
Definition muted : adapter :=
  run [RegisterTransition "m" "a" "GO" (Literal "")] bare.

(** A machine whose handlers fail: [() => {}] returns [undefined],
    [() => { throw new Error('out of luck') }] throws. *)
Definition forgetful : handler := fun _ _ => Returns Undefined.

Definition unlucky : handler := fun _ _ => Throws "out of luck".

Definition flaky_config : config :=
  {| cfg_initialState := Some "ready"; cfg_states := None;
     cfg_context := None;
     cfg_transitions :=
       Some [("ready", [("RUN", Handler forgetful);
                        ("FAIL", Handler unlucky)])] |}.

Definition flaky : adapter :=
  run [RegisterMachine 0 "job" flaky_config] constructor.

(** The entry a configuration gives a key: of the configured entries
    with that key, the one the loops of [registerMachine] set last. *)
Definition configured (cfg : config) (key : string) : option transition :=
  map_get key (reverse (flat_entries (default [] (cfg_transitions cfg)))).

(** The watched turnstile beside a checkout with one listener. *)
Definition both : adapter :=
  run [RegisterMachine 3 "checkout" checkout_config;
       OnStateChange "checkout" quiet] watched.

(** A listener that is registered nowhere. *)
Definition third : listener :=
  {| l_ref := 3; l_body := fun _ => Returns tt |}.

(** [() => ({ state: 'paid', data: { event: 'TAGGED', note: 7 } })]: the
    data names a standard property of the notification and a new one. *)
Definition tag : handler := fun _ _ =>
  Returns (Result {| r_state := Some "paid";
                     r_context := None;
                     r_data := Some (<["event" := VStr "TAGGED"]>
                                       {["note" := VNum 7]}) |}).

Definition tagged_config : config :=
  {| cfg_initialState := Some "cart"; cfg_states := None;
     cfg_context := None;
     cfg_transitions := Some [("cart", [("TAG", Handler tag)])] |}.

(** An order with the tagging handler and two listeners. *)
Definition tagged : adapter :=
  run [RegisterMachine 0 "order" tagged_config;
       OnStateChange "order" boom; OnStateChange "order" quiet] constructor.

Definition tagged_machine : machine :=
  {| id := "order"; currentState := "cart"; states := ∅; context := ∅;
     history := []; created := 0 |}.

(** * Properties *)

(** ** Notification *)

Lemma notify_one_returns machineId changeData callback this :
  ∃ this',
    notify_one machineId changeData callback this = (Returns tt, this')
    ∧ same_maps this this'
    ∧ calls this' = calls this ++ [(l_ref callback, changeData)]
    ∧ console this' = console this ++ reported machineId changeData [callback].
Proof.
  unfold notify_one, reported, bind, modify, ret; simpl.
  destruct (l_body callback changeData) as [[]|e]; simpl;
    eexists; (split; [reflexivity|]); simpl;
    rewrite ?app_nil_r; by repeat split.
Qed.

Lemma reported_cons machineId changeData callback callbacks :
  reported machineId changeData (callback :: callbacks)
  = reported machineId changeData [callback]
      ++ reported machineId changeData callbacks.
Proof.
  unfold reported; simpl.
  by destruct (l_body callback changeData).
Qed.

(** Every callback of the list is called, in the order of the list,
    whatever the callbacks before it did. *)
Lemma forEach_notify machineId changeData callbacks : ∀ this,
  ∃ this',
    forEach (notify_one machineId changeData) callbacks this
      = (Returns tt, this')
    ∧ same_maps this this'
    ∧ calls this' = calls this ++ invocations changeData callbacks
    ∧ console this' = console this ++ reported machineId changeData callbacks.
Proof.
  induction callbacks as [|cb rest IH]; intros this.
  - exists this. unfold invocations, reported; simpl. rewrite !app_nil_r.
    by repeat split.
  - destruct (notify_one_returns machineId changeData cb this)
      as (a1 & E1 & (M1 & T1 & S1) & C1 & L1).
    destruct (IH a1) as (a2 & E2 & (M2 & T2 & S2) & C2 & L2).
    exists a2. rewrite (reported_cons _ _ cb rest).
    simpl. unfold bind. rewrite E1. split; [exact E2|].
    split; [repeat split; congruence|].
    rewrite C2, C1, L2, L1.
    unfold invocations; simpl. by rewrite <- !app_assoc.
Qed.

Lemma notifyStateChange_returns machineId changeData this :
  let callbacks := default [] (stateCallbacks this !! machineId) in
  ∃ this',
    _notifyStateChange machineId changeData this = (Returns tt, this')
    ∧ same_maps this this'
    ∧ calls this' = calls this ++ invocations changeData callbacks
    ∧ console this' = console this ++ reported machineId changeData callbacks.
Proof.
  unfold _notifyStateChange, bind, get.
  destruct (stateCallbacks this !! machineId) as [callbacks|]; simpl.
  - apply forEach_notify.
  - exists this. unfold ret, invocations, reported; simpl.
    rewrite !app_nil_r. by repeat split.
Qed.

Lemma execute_transition_returns now machineId machine fromState toState event
    payload transitionData this :
  let callbacks := default [] (stateCallbacks this !! machineId) in
  let changeData :=
    change_data fromState toState event payload (context machine)
      transitionData in
  ∃ this',
    execute_transition now machineId machine fromState toState event payload
      transitionData this
    = (Returns {| success := true; res_fromState := fromState;
                  res_toState := toState; res_event := event;
                  res_context := Some (context machine) |}, this')
    ∧ machines this'
      = <[machineId := transitioned now machine fromState toState event payload]>
          (machines this)
    ∧ transitions this' = transitions this
    ∧ stateCallbacks this' = stateCallbacks this
    ∧ calls this' = calls this ++ invocations changeData callbacks
    ∧ console this' = console this ++ reported machineId changeData callbacks.
Proof.
  intros callbacks changeData. unfold execute_transition.
  set (m' := transitioned now machine fromState toState event payload).
  unfold bind at 1. unfold modify at 1.
  set (a1 := with_machines <[machineId := m']> this).
  destruct (notifyStateChange_returns machineId
              (change_data fromState toState event payload (context m')
                 transitionData) a1) as (a2 & E & (M2 & T2 & S2) & C2 & L2).
  exists a2. unfold bind. rewrite E. unfold ret.
  split; [reflexivity|].
  rewrite M2, T2, S2, C2, L2. by repeat split.
Qed.

(** Runs the [execute_transition] of the goal to its result. *)
Tactic Notation "run_execute" "as" simple_intropattern(pat) :=
  match goal with
  | |- context [execute_transition ?n ?i ?mm ?f ?t ?e ?p ?d ?a] =>
      destruct (execute_transition_returns n i mm f t e p d a) as pat
  end.

(** Splits on whether the key [j] looked up is the key [i] written. *)
Ltac at_key i j :=
  destruct (decide (i = j)) as [->|?];
  [rewrite ?lookup_insert_eq, ?lookup_delete_eq
  |rewrite ?lookup_insert_ne, ?lookup_delete_ne by done].

(** ** Worked example: a turnstile *)

Example turnstile_registered :
  machines turnstile !! "turnstile" = Some turnstile_machine
  ∧ transitions turnstile !! "turnstile" = Some turnstile_table
  ∧ stateCallbacks turnstile !! "turnstile" = Some [].
Proof. by vm_compute. Qed.

Example turnstile_coin_push_push :
  let r1 := send 1 "turnstile" "COIN" VUndefined turnstile in
  let r2 := send 2 "turnstile" "PUSH" VUndefined r1.2 in
  let r3 := send 3 "turnstile" "PUSH" VUndefined r2.2 in
  r1.1 = Returns {| success := true; res_fromState := "locked";
                    res_toState := "unlocked"; res_event := "COIN";
                    res_context := Some ∅ |}
  ∧ r2.1 = Returns {| success := true; res_fromState := "unlocked";
                      res_toState := "locked"; res_event := "PUSH";
                      res_context := Some ∅ |}
  ∧ r3.1 = Returns {| success := false; res_fromState := "locked";
                      res_toState := "locked"; res_event := "PUSH";
                      res_context := None |}.
Proof. by vm_compute. Qed.

(** ** [send] without a transition *)

(** C1: when the transition table of a registered machine has no entry
    under the key of (currentState, event), [send] returns success=false
    with fromState = toState = currentState; the machines (so the
    machine's currentState, context and history), the tables and the
    listener lists are as before, and no listener is called. *)
Theorem send_no_transition this now machineId event payload m table :
  machines this !! machineId = Some m →
  transitions this !! machineId = Some table →
  map_get (currentState m +:+ ":" +:+ event) table = None →
  ∃ this',
    send now machineId event payload this
    = (Returns {| success := false; res_fromState := currentState m;
                  res_toState := currentState m; res_event := event;
                  res_context := None |}, this')
    ∧ machines this' !! machineId = Some m
    ∧ same_maps this this'
    ∧ calls this' = calls this.
Proof.
  intros Hm Ht Hk.
  unfold send, bind, get. rewrite Hm, Ht, Hk.
  unfold no_transition, bind, modify, ret.
  eexists. split; [reflexivity|]. simpl. by repeat split.
Qed.

Lemma send_no_transition_witness :
  ∃ this',
    send 1 "turnstile" "PUSH" VNull turnstile
    = (Returns {| success := false; res_fromState := "locked";
                  res_toState := "locked"; res_event := "PUSH";
                  res_context := None |}, this')
    ∧ machines this' !! "turnstile" = Some turnstile_machine
    ∧ same_maps turnstile this'
    ∧ calls this' = calls turnstile.
Proof.
  apply (send_no_transition turnstile 1 "turnstile" "PUSH" VNull
           turnstile_machine turnstile_table); by vm_compute.
Defined.

(** An entry that is the empty label is falsy in [!transition]: [send]
    answers as if there were no entry. *)
Lemma send_empty_label this now machineId event payload m table :
  machines this !! machineId = Some m →
  transitions this !! machineId = Some table →
  map_get (currentState m +:+ ":" +:+ event) table = Some (Literal "") →
  send now machineId event payload this = no_transition machineId m event this.
Proof.
  intros Hm Ht Hk. unfold send, bind at 1, get. by rewrite Hm, Ht, Hk.
Qed.

(** X4: what a handler throws reaches the caller of [send], and the
    adapter is as before: no state change, no history record, no listener
    call, no console line. *)
Lemma send_handler_throws this now machineId event payload m table h e :
  machines this !! machineId = Some m →
  transitions this !! machineId = Some table →
  map_get (currentState m +:+ ":" +:+ event) table = Some (Handler h) →
  h (context m) (or_null payload) = Throws e →
  send now machineId event payload this = (Throws e, this).
Proof.
  intros Hm Ht Hk Hh. unfold send, bind at 1, get. by rewrite Hm, Ht, Hk, Hh.
Qed.

(** ** [send] to an unknown identifier *)

(** C3, counterexample: "ghost" has no machine on a new adapter, and
    [send("ghost", "GO")] throws instead of returning a result. *)
Lemma send_unknown_not_soft :
  machines constructor !! "ghost" = None
  ∧ (send 0 "ghost" "GO" VNull constructor).1
    = Throws "Machine ghost not found"
  ∧ ¬ ∃ result, (send 0 "ghost" "GO" VNull constructor).1 = Returns result.
Proof.
  split; [done|]. split; [reflexivity|].
  intros [result H]. vm_compute in H. discriminate H.
Qed.

(** C3, amended: for an identifier without a machine, [send] throws
    "Machine <id> not found" and leaves the adapter as it was. *)
Theorem send_unknown_throws this now machineId event payload :
  machines this !! machineId = None →
  send now machineId event payload this
  = (Throws ("Machine " +:+ machineId +:+ " not found"), this).
Proof.
  intros Hm. unfold send, bind, get. by rewrite Hm.
Qed.

Lemma send_unknown_throws_witness :
  send 0 "ghost" "GO" VNull constructor
  = (Throws "Machine ghost not found", constructor).
Proof.
  apply (send_unknown_throws constructor 0%Z "ghost" "GO" VNull).
  reflexivity.
Defined.

(** ** [send] through a handler *)

Lemma spread_merged (old patch : object) : merged old patch (spread old patch).
Proof.
  intros key. unfold spread.
  destruct (patch !! key) as [v|] eqn:E.
  - by apply lookup_union_Some_l.
  - by rewrite lookup_union_r.
Qed.

(** C4: for a handler-valued transition under the key of
    (currentState, event) whose handler returns [result], [send] succeeds
    and leaves the machine with: the context it had when [result] has no
    context; the patch merged into that context when it has one; and the
    current state as target when [result] has no state. *)
Theorem send_handler this now machineId event payload m table h result :
  machines this !! machineId = Some m →
  transitions this !! machineId = Some table →
  map_get (currentState m +:+ ":" +:+ event) table = Some (Handler h) →
  h (context m) (or_null payload) = Returns (Result result) →
  ∃ r this' m',
    send now machineId event payload this = (Returns r, this')
    ∧ machines this' !! machineId = Some m'
    ∧ success r = true
    ∧ res_fromState r = currentState m
    ∧ res_toState r = currentState m'
    ∧ res_context r = Some (context m')
    ∧ (r_context result = None → context m' = context m)
    ∧ (∀ patch, r_context result = Some patch →
         merged (context m) patch (context m'))
    ∧ (r_state result = None → currentState m' = currentState m).
Proof.
  intros Hm Ht Hk Hh.
  unfold send, bind at 1, get. rewrite Hm, Ht, Hk, Hh.
  run_execute as (this' & E & HM & _).
  rewrite E. eexists _, this', _.
  split; [reflexivity|]. rewrite HM, lookup_insert_eq.
  split; [reflexivity|]. simpl.
  repeat split.
  - by intros ->.
  - intros patch ->. simpl. apply spread_merged.
  - by intros ->.
Qed.

(** ** Worked example: a checkout with handlers *)

Example checkout_registered :
  machines checkout !! "checkout" = Some checkout_machine
  ∧ transitions checkout !! "checkout" = Some checkout_table.
Proof. by vm_compute. Qed.

(** Paying 10 moves to "paid", paying 0 stays in "cart"; both are
    recorded with their payload. *)
Example checkout_pay :
  let ten := VObj {["amount" := VNum 10]} in
  let zero := VObj {["amount" := VNum 0]} in
  let after0 := (send 1 "checkout" "PAY" zero checkout).2 in
  let after10 := (send 2 "checkout" "PAY" ten after0).2 in
  getState "checkout" after0 = Some "cart"
  ∧ getState "checkout" after10 = Some "paid"
  ∧ getHistory "checkout" None after10
    = [{| h_fromState := "cart"; h_toState := "cart"; h_event := "PAY";
          h_payload := zero; h_timestamp := 1 |};
       {| h_fromState := "cart"; h_toState := "paid"; h_event := "PAY";
          h_payload := ten; h_timestamp := 2 |}].
Proof. by vm_compute. Qed.

Lemma send_handler_witness :
  ∃ r this' m',
    send 1 "checkout" "NOTE" VNull checkout = (Returns r, this')
    ∧ machines this' !! "checkout" = Some m'
    ∧ success r = true
    ∧ res_fromState r = "cart"
    ∧ res_toState r = currentState m'
    ∧ res_context r = Some (context m')
    ∧ (Some ({["a" := VNum 1]} : object) = None → context m' = {["b" := VNum 2]})
    ∧ (∀ patch, Some ({["a" := VNum 1]} : object) = Some patch →
         merged {["b" := VNum 2]} patch (context m'))
    ∧ ((None : option string) = None → currentState m' = "cart").
Proof.
  apply (send_handler checkout 1 "checkout" "NOTE" VNull checkout_machine
           checkout_table note
           {| r_state := None; r_context := Some {["a" := VNum 1]};
              r_data := None |}); by vm_compute.
Defined.

Example checkout_note_context :
  getContext "checkout" (send 1 "checkout" "NOTE" VNull checkout).2
  = Some (<["a" := VNum 1]> {["b" := VNum 2]}).
Proof. by vm_compute. Qed.

(** ** [updateContext] *)

(** C5: [updateContext] on a registered machine merges the patch into
    the machine's context and changes nothing else: the machine keeps
    its state and history, the other machines, the tables and the
    listener lists are as before, and no listener is called. *)
Theorem updateContext_frame this machineId patch m :
  machines this !! machineId = Some m →
  let this' := updateContext machineId patch this in
  ∃ m',
    machines this' !! machineId = Some m'
    ∧ merged (context m) patch (context m')
    ∧ m' = set_context (context m') m
    ∧ currentState m' = currentState m
    ∧ history m' = history m
    ∧ (∀ other, other ≠ machineId →
         machines this' !! other = machines this !! other)
    ∧ transitions this' = transitions this
    ∧ stateCallbacks this' = stateCallbacks this
    ∧ calls this' = calls this
    ∧ console this' = console this.
Proof.
  intros Hm this'. subst this'. unfold updateContext. rewrite Hm. simpl.
  eexists. rewrite lookup_insert_eq. split; [reflexivity|]. simpl.
  repeat split.
  - apply spread_merged.
  - intros other Hne. by rewrite lookup_insert_ne.
Qed.

Lemma updateContext_frame_witness :
  let this' := updateContext "checkout" {["a" := VNum 1]} checkout in
  ∃ m',
    machines this' !! "checkout" = Some m'
    ∧ merged {["b" := VNum 2]} {["a" := VNum 1]} (context m')
    ∧ m' = set_context (context m') checkout_machine
    ∧ currentState m' = "cart"
    ∧ history m' = []
    ∧ (∀ other, other ≠ "checkout" →
         machines this' !! other = machines checkout !! other)
    ∧ transitions this' = transitions checkout
    ∧ stateCallbacks this' = stateCallbacks checkout
    ∧ calls this' = calls checkout
    ∧ console this' = console checkout.
Proof.
  apply (updateContext_frame checkout "checkout" {["a" := VNum 1]}
           checkout_machine).
  by vm_compute.
Defined.


(** ** Notification of listeners by [send] *)

Lemma onStateChange_appends this machineId callbacks callback :
  stateCallbacks this !! machineId = Some callbacks →
  stateCallbacks (onStateChange machineId callback this) !! machineId
  = Some (callbacks ++ [callback]).
Proof.
  intros H. unfold onStateChange. rewrite H. simpl. apply lookup_insert_eq.
Qed.

(** C7: a [send] that finds a usable transition calls every listener of
    the machine once, in the order of the list, whether or not listeners
    throw; a listener registered later stands after the ones registered
    before it; what a listener throws goes to the console and [send]
    still returns its success=true result. *)
Theorem send_notifies_all this now machineId event payload m table t callbacks :
  machines this !! machineId = Some m →
  transitions this !! machineId = Some table →
  stateCallbacks this !! machineId = Some callbacks →
  map_get (currentState m +:+ ":" +:+ event) table = Some t →
  usable t m (or_null payload) →
  (∀ callback,
     stateCallbacks (onStateChange machineId callback this) !! machineId
     = Some (callbacks ++ [callback]))
  ∧ ∃ r this' changeData,
      send now machineId event payload this = (Returns r, this')
      ∧ success r = true
      ∧ calls this' = calls this ++ invocations changeData callbacks
      ∧ console this' = console this ++ reported machineId changeData callbacks
      ∧ stateCallbacks this' = stateCallbacks this.
Proof.
  intros Hm Ht Hc Hk Hu. split.
  { intros callback. by apply onStateChange_appends. }
  unfold send, bind at 1, get. rewrite Hm, Ht, Hk.
  destruct t as [toState|h]; simpl in Hu.
  - destruct (decide (toState = "")) as [->|_]; [done|].
    run_execute as (this' & E & _ & _ & HS & HC & HL).
    rewrite Hc in HC, HL. simpl in HC, HL.
    rewrite E. by eexists _, this', _.
  - destruct Hu as [result Hr]. rewrite Hr.
    run_execute as (this' & E & _ & _ & HS & HC & HL).
    rewrite Hc in HC, HL. simpl in HC, HL.
    rewrite E. by eexists _, this', _.
Qed.

Example watched_listeners :
  stateCallbacks watched !! "turnstile" = Some [boom; quiet].
Proof. by vm_compute. Qed.

Lemma send_notifies_all_witness :
  (∀ callback,
     stateCallbacks (onStateChange "turnstile" callback watched) !! "turnstile"
     = Some ([boom; quiet] ++ [callback]))
  ∧ ∃ r this' changeData,
      send 1 "turnstile" "COIN" VNull watched = (Returns r, this')
      ∧ success r = true
      ∧ calls this' = calls watched ++ invocations changeData [boom; quiet]
      ∧ console this'
        = console watched ++ reported "turnstile" changeData [boom; quiet]
      ∧ stateCallbacks this' = stateCallbacks watched.
Proof.
  apply (send_notifies_all watched 1 "turnstile" "COIN" VNull
           turnstile_machine turnstile_table (Literal "unlocked")
           [boom; quiet]); by vm_compute.
Defined.

(** The throwing listener does not keep the second one from its call. *)
Example watched_coin :
  let after := (send 1 "turnstile" "COIN" VNull watched).2 in
  fst <$> calls after = [1; 2]
  ∧ console after
    = [("error", "Error in state change callback for turnstile: boom")].
Proof. by vm_compute. Qed.

(** ** Registration *)

Lemma registerTransition_registered this machineId fromState event t table :
  transitions this !! machineId = Some table →
  registerTransition machineId fromState event t this
  = (Returns tt,
     with_transitions
       <[machineId := map_set (fromState +:+ ":" +:+ event) t table]> this).
Proof.
  intros H. unfold registerTransition, bind, get. by rewrite H.
Qed.

Lemma registerTransition_unregistered this machineId fromState event t :
  transitions this !! machineId = None →
  registerTransition machineId fromState event t this
  = (Throws ("Machine " +:+ machineId +:+ " not registered"), this).
Proof.
  intros H. unfold registerTransition, bind, get. by rewrite H.
Qed.

Lemma forEach_events machineId from events : ∀ this table,
  transitions this !! machineId = Some table →
  ∃ this',
    forEach (fun '(event, to) => registerTransition machineId from event to)
      events this = (Returns tt, this')
    ∧ only_table machineId
        (set_all table
           ((fun '(event, to) => (from +:+ ":" +:+ event, to)) <$> events))
        this this'.
Proof.
  induction events as [|[event to] rest IH]; intros this table Ht; simpl.
  - exists this. split; [reflexivity|].
    unfold only_table. by rewrite insert_id.
  - unfold bind at 1.
    rewrite (registerTransition_registered _ _ _ _ _ table Ht).
    set (a1 := with_transitions _ this).
    destruct (IH a1 (map_set (from +:+ ":" +:+ event) to table))
      as (a2 & E & HM & HT & HS & HC & HL).
    { subst a1; simpl. apply lookup_insert_eq. }
    exists a2. split; [exact E|].
    unfold only_table. rewrite HM, HT, HS, HC, HL. subst a1; simpl.
    by rewrite insert_insert_eq.
Qed.

Lemma forEach_entries machineId entries : ∀ this table,
  transitions this !! machineId = Some table →
  ∃ this',
    forEach (fun '(from, transitions) =>
      forEach (fun '(event, to) =>
        registerTransition machineId from event to) transitions)
      entries this = (Returns tt, this')
    ∧ only_table machineId (set_all table (flat_entries entries)) this this'.
Proof.
  induction entries as [|[from events] rest IH]; intros this table Ht; simpl.
  - exists this. split; [reflexivity|].
    unfold only_table. by rewrite insert_id.
  - destruct (forEach_events machineId from events this table Ht)
      as (a1 & E1 & HM1 & HT1 & HS1 & HC1 & HL1).
    unfold bind at 1. rewrite E1.
    destruct (IH a1 (set_all table
                ((fun '(event, to) => (from +:+ ":" +:+ event, to)) <$> events)))
      as (a2 & E2 & HM2 & HT2 & HS2 & HC2 & HL2).
    { rewrite HT1. apply lookup_insert_eq. }
    exists a2. split; [exact E2|].
    unfold only_table. rewrite HM2, HT2, HS2, HC2, HL2, HM1, HT1, HS1, HC1, HL1.
    rewrite insert_insert_eq. unfold set_all, flat_entries. simpl.
    by rewrite foldl_app.
Qed.

(** [registerMachine] returns the new machine object and leaves it under
    the identifier, with a table holding the entries of the configuration
    and nothing else, and with an empty listener list. *)
Lemma registerMachine_returns this now machineId cfg :
  ∃ this',
    registerMachine now machineId cfg this
    = (Returns (new_machine now machineId cfg), this')
    ∧ machines this' = <[machineId := new_machine now machineId cfg]> (machines this)
    ∧ transitions this'
      = <[machineId := set_all [] (flat_entries (default [] (cfg_transitions cfg)))]>
          (transitions this)
    ∧ stateCallbacks this' = <[machineId := []]> (stateCallbacks this)
    ∧ calls this' = calls this
    ∧ console this'
      = console this
          ++ (if decide (is_Some (machines this !! machineId))
              then [("warn", "Machine " +:+ machineId
                               +:+ " already registered, overwriting")]
              else []).
Proof.
  unfold registerMachine. fold (new_machine now machineId cfg).
  unfold bind at 1, get.
  set (warned := if decide (is_Some (machines this !! machineId))
                 then log "warn" ("Machine " +:+ machineId
                                    +:+ " already registered, overwriting") this
                 else this).
  assert (HW : machines warned = machines this
               ∧ transitions warned = transitions this
               ∧ stateCallbacks warned = stateCallbacks this
               ∧ calls warned = calls this
               ∧ console warned
                 = console this
                     ++ (if decide (is_Some (machines this !! machineId))
                         then [("warn", "Machine " +:+ machineId
                                          +:+ " already registered, overwriting")]
                         else [])).
  { subst warned. destruct (decide _); simpl; rewrite ?app_nil_r; done. }
  destruct HW as (WM & WT & WS & WC & WL).
  set (a3 := with_stateCallbacks <[machineId := []]>
               (with_transitions <[machineId := []]>
                  (with_machines <[machineId := new_machine now machineId cfg]>
                     warned))).
  assert (E0 : ∀ k : M machine,
    ((if decide (is_Some (machines this !! machineId))
      then modify (log "warn" ("Machine " +:+ machineId
                                 +:+ " already registered, overwriting"))
      else ret tt) ;;;
     modify (with_machines <[machineId := new_machine now machineId cfg]>) ;;;
     modify (with_transitions <[machineId := []]>) ;;;
     modify (with_stateCallbacks <[machineId := []]>) ;;; k) this = k a3).
  { intros k. subst a3 warned. unfold bind, modify, ret.
    by destruct (decide _). }
  rewrite E0. clear E0.
  destruct (cfg_transitions cfg) as [entries|]; simpl.
  - destruct (forEach_entries machineId entries a3 [])
      as (a4 & E & HM & HT & HS & HC & HL).
    { subst a3; simpl. apply lookup_insert_eq. }
    exists a4. unfold bind. rewrite E. unfold ret. split; [reflexivity|].
    rewrite HM, HT, HS, HC, HL. subst a3; simpl.
    rewrite insert_insert_eq, WM, WT, WS, WC, WL. by repeat split.
  - exists a3. unfold bind, ret. split; [reflexivity|].
    subst a3; simpl. rewrite WM, WT, WS, WC, WL. by repeat split.
Qed.

(** ** The history cap *)

Lemma slice_from_negative {A} (n : nat) (l : list A) :
  0 < n → slice_from (- Z.of_nat n) l = last_n n l.
Proof.
  intros Hn. unfold slice_from, last_n.
  destruct (Z.ltb_spec (- Z.of_nat n) 0) as [_|H]; [|lia].
  f_equal. lia.
Qed.

Lemma length_last_n {A} (n : nat) (l : list A) :
  length (last_n n l) = min n (length l).
Proof. unfold last_n. rewrite length_drop. lia. Qed.

Lemma transitioned_history now m fromState toState event payload :
  let pushed :=
    history m ++
      [{| h_fromState := fromState; h_toState := toState; h_event := event;
          h_payload := payload; h_timestamp := now |}] in
  history (transitioned now m fromState toState event payload)
  = last_n 100 pushed.
Proof.
  intros pushed. unfold transitioned. fold pushed. simpl.
  destruct (decide (100 < length pushed)) as [H|H].
  - change (-100)%Z with (- Z.of_nat 100)%Z. apply slice_from_negative. lia.
  - unfold last_n. replace (length pushed - 100) with 0 by lia. done.
Qed.

(** What any [send] does to the adapter: the tables and listener lists
    stay; either the machines stay, no listener is called and no success
    is returned, or the machine under the identifier is replaced by the
    transitioned one and the result is a success. *)
Lemma send_cases this now machineId event payload :
  ∃ c this',
    send now machineId event payload this = (c, this')
    ∧ transitions this' = transitions this
    ∧ stateCallbacks this' = stateCallbacks this
    ∧ ((machines this' = machines this
        ∧ calls this' = calls this
        ∧ ∀ r, c = Returns r → success r = false)
       ∨ ∃ m mm toState changeData,
           machines this !! machineId = Some m
           ∧ history mm = history m
           ∧ c = Returns {| success := true; res_fromState := currentState m;
                            res_toState := toState; res_event := event;
                            res_context := Some (context mm) |}
           ∧ machines this'
             = <[machineId := transitioned now mm (currentState m) toState
                                event (or_null payload)]> (machines this)
           ∧ calls this'
             = calls this
                 ++ invocations changeData
                      (default [] (stateCallbacks this !! machineId))).
Proof.
  unfold send, bind at 1, get.
  destruct (machines this !! machineId) as [m|] eqn:Hm;
    [|eexists _, this; split; [reflexivity|]; repeat split;
      left; by repeat split].
  destruct (transitions this !! machineId) as [table|];
    [|eexists _, this; split; [reflexivity|]; repeat split;
      left; by repeat split].
  assert (Hno : ∃ c this',
    no_transition machineId m event this = (c, this')
    ∧ transitions this' = transitions this
    ∧ stateCallbacks this' = stateCallbacks this
    ∧ machines this' = machines this
    ∧ calls this' = calls this
    ∧ ∀ r, c = Returns r → success r = false).
  { unfold no_transition, bind, modify, ret. eexists _, _.
    split; [reflexivity|]. simpl. repeat split. by intros r [= <-]. }
  assert (Hex : ∀ mm toState transitionData,
    history mm = history m →
    ∃ c this',
      execute_transition now machineId mm (currentState m) toState event
        (or_null payload) transitionData this = (c, this')
      ∧ transitions this' = transitions this
      ∧ stateCallbacks this' = stateCallbacks this
      ∧ ∃ m0 mm0 toState0 changeData,
          Some m = Some m0
          ∧ history mm0 = history m0
          ∧ c = Returns {| success := true; res_fromState := currentState m0;
                           res_toState := toState0; res_event := event;
                           res_context := Some (context mm0) |}
          ∧ machines this'
            = <[machineId := transitioned now mm0 (currentState m0) toState0
                               event (or_null payload)]> (machines this)
          ∧ calls this'
            = calls this
                ++ invocations changeData
                     (default [] (stateCallbacks this !! machineId))).
  { intros mm toState transitionData Hh.
    destruct (execute_transition_returns now machineId mm (currentState m)
                toState event (or_null payload) transitionData this)
      as (this' & E & HM & HT & HS & HC & _).
    eexists _, this'. split; [exact E|]. do 2 (split; [done|]).
    by eexists m, mm, toState, _. }
  destruct (map_get _ table) as [[toState|h]|].
  - destruct (decide (toState = "")).
    + destruct Hno as (c & this' & E & HT & HS & HM & HC & Hr).
      exists c, this'. repeat split; try done. left. by repeat split.
    + destruct (Hex m toState ∅ eq_refl) as (c & this' & E & HT & HS & H).
      exists c, this'. repeat split; try done. by right.
  - destruct (h (context m) (or_null payload)) as [[result| |]|e];
      try (eexists _, this; split; [reflexivity|]; repeat split;
           left; by repeat split).
    match goal with
    | |- context [execute_transition _ _ ?mm _ ?t _ _ ?d this] =>
        destruct (Hex mm t d) as (c & this' & E & HT & HS & H)
    end.
    { by destruct (r_context result). }
    exists c, this'. repeat split; try done. by right.
  - destruct Hno as (c & this' & E & HT & HS & HM & HC & Hr).
    exists c, this'. repeat split; try done. left. by repeat split.
Qed.

Lemma exec_bounded c this : bounded this → bounded (exec c this).
Proof.
  intros Hb. destruct c as [now i cfg|i f e t|now i e p|i u|i cb|i cb|i ch|i];
    simpl.
  - destruct (registerMachine_returns this now i cfg) as (this' & E & HM & _).
    rewrite E. simpl. intros j m. rewrite HM. at_key i j; [|apply Hb].
    intros [= <-]. simpl. lia.
  - destruct (transitions this !! i) as [table|] eqn:Ht.
    + by rewrite (registerTransition_registered _ _ _ _ _ table Ht).
    + by rewrite registerTransition_unregistered.
  - destruct (send_cases this now i e p) as (c & this' & E & _ & _ & H).
    rewrite E. simpl.
    destruct H as [(HM & _)|(m & mm & toState & cd & Hm & Hh & _ & HM & _)];
      intros j m'; rewrite HM; [apply Hb|].
    at_key i j; [|apply Hb].
    intros [= <-]. rewrite transitioned_history, length_last_n. lia.
  - unfold updateContext. destruct (machines this !! i) as [m|] eqn:Hm; [|done].
    intros j m'. simpl. at_key i j; [|apply Hb].
    intros [= <-]. simpl. by eapply Hb.
  - unfold onStateChange. by destruct (stateCallbacks this !! i).
  - unfold offStateChange. by destruct (stateCallbacks this !! i).
  - unfold reset. destruct (machines this !! i) as [m|] eqn:Hm; [|done].
    intros j m'. simpl. at_key i j; [|apply Hb].
    intros [= <-]. destruct (default false ch); simpl; [lia|by eapply Hb].
  - intros j m. simpl. at_key i j; [done|apply Hb].
Qed.

Lemma run_snoc cs c this : run (cs ++ [c]) this = exec c (run cs this).
Proof. unfold run. by rewrite foldl_app. Qed.

Lemma run_bounded cs : ∀ this, bounded this → bounded (run cs this).
Proof.
  induction cs as [|c cs IH]; intros this Hb; [done|].
  simpl. apply IH. by apply exec_bounded.
Qed.

Lemma reachable_bounded this : reachable this → bounded this.
Proof.
  intros [cs ->]. apply run_bounded. intros j m. simpl.
  by rewrite lookup_empty.
Qed.

(** The three maps keep the same keys: a machine has a table and a
    listener list from its registration to its removal. *)
Lemma exec_consistent c this : consistent this → consistent (exec c this).
Proof.
  intros [HT HS].
  destruct c as [now i cfg|i f e t|now i e p|i u|i cb|i cb|i ch|i]; simpl.
  - destruct (registerMachine_returns this now i cfg)
      as (this' & E & HM' & HT' & HS' & _).
    rewrite E. unfold consistent. simpl. rewrite HM', HT', HS'.
    rewrite !dom_insert_L. by rewrite HT, HS.
  - destruct (transitions this !! i) as [table|] eqn:Ht.
    + rewrite (registerTransition_registered _ _ _ _ _ table Ht).
      unfold consistent. simpl. by rewrite dom_insert_lookup_L.
    + by rewrite registerTransition_unregistered.
  - destruct (send_cases this now i e p) as (c & this' & E & HT' & HS' & H).
    rewrite E. unfold consistent. simpl. rewrite HT', HS'.
    destruct H as [(-> & _)|(m & mm & toState & cd & Hm & _ & _ & -> & _)];
      [done|].
    by rewrite dom_insert_lookup_L.
  - unfold updateContext. destruct (machines this !! i) as [m|] eqn:Hm; [|done].
    unfold consistent. simpl. by rewrite dom_insert_lookup_L.
  - unfold onStateChange.
    destruct (stateCallbacks this !! i) as [l|] eqn:Hl; [|done].
    unfold consistent. simpl. by rewrite dom_insert_lookup_L.
  - unfold offStateChange.
    destruct (stateCallbacks this !! i) as [l|] eqn:Hl; [|done].
    unfold consistent. simpl. by rewrite dom_insert_lookup_L.
  - unfold reset. destruct (machines this !! i) as [m|] eqn:Hm; [|done].
    unfold consistent. simpl. by rewrite dom_insert_lookup_L.
  - unfold consistent. simpl. rewrite !dom_delete_L. by rewrite HT, HS.
Qed.

Lemma reachable_consistent this : reachable this → consistent this.
Proof.
  intros [cs ->]. induction cs as [|c cs IH] using rev_ind; [done|].
  rewrite run_snoc. by apply exec_consistent.
Qed.

(** A registered machine of a reachable adapter has its table and its
    listener list. *)
Lemma registered_has_table this machineId m :
  reachable this →
  machines this !! machineId = Some m →
  ∃ table callbacks,
    transitions this !! machineId = Some table
    ∧ stateCallbacks this !! machineId = Some callbacks.
Proof.
  intros [HT HS]%reachable_consistent Hm.
  assert (Hin : machineId ∈ dom (machines this)) by (apply elem_of_dom; eauto).
  destruct (proj1 (elem_of_dom (transitions this) machineId)) as [table Ht];
    [by rewrite HT|].
  destruct (proj1 (elem_of_dom (stateCallbacks this) machineId))
    as [callbacks Hc]; [by rewrite HS|].
  by exists table, callbacks.
Qed.

(** C2: after any sequence of calls on a new adapter, the history of a
    registered machine has at most 100 entries; and a successful [send]
    leaves exactly the last 100 of the old entries followed by the new
    record, in that order: the oldest entries are the ones dropped. *)
Theorem history_capped cs machineId m :
  machines (run cs constructor) !! machineId = Some m →
  length (history m) ≤ 100
  ∧ ∀ now event payload r this',
      send now machineId event payload (run cs constructor) = (Returns r, this') →
      success r = true →
      ∃ m',
        machines this' !! machineId = Some m'
        ∧ history m'
          = last_n 100
              (history m ++ [pushed_entry now m (res_toState r) event payload])
        ∧ length (history m') = min 100 (S (length (history m))).
Proof.
  intros Hm. split.
  { eapply (reachable_bounded (run cs constructor)); [by exists cs|done]. }
  intros now event payload r this' Hs Hr.
  destruct (send_cases (run cs constructor) now machineId event payload)
    as (c & a & E & _ & _ & H).
  rewrite Hs in E. injection E as <- <-.
  destruct H as [(_ & _ & Hf)|(m0 & mm & toState & cd & Hm0 & Hh & Hc & HM & _)].
  { rewrite (Hf r eq_refl) in Hr. discriminate. }
  rewrite Hm in Hm0. injection Hm0 as <-. injection Hc as ->. cbn [res_toState].
  eexists. rewrite HM, lookup_insert_eq. split; [reflexivity|].
  rewrite transitioned_history, Hh. split; [reflexivity|].
  rewrite length_last_n, length_app. cbn [length]. lia.
Qed.

Lemma history_capped_witness :
  length (history (loop_machine (loop_entry <$> seq 1 100))) ≤ 100
  ∧ ∀ now event payload r this',
      send now "loop" event payload (run (loop_calls 100) constructor)
      = (Returns r, this') →
      success r = true →
      ∃ m',
        machines this' !! "loop" = Some m'
        ∧ history m'
          = last_n 100
              (history (loop_machine (loop_entry <$> seq 1 100))
                 ++ [pushed_entry now (loop_machine (loop_entry <$> seq 1 100))
                       (res_toState r) event payload])
        ∧ length (history m')
          = min 100 (S (length (history (loop_machine (loop_entry <$> seq 1 100))))).
Proof.
  apply (history_capped (loop_calls 100) "loop"
           (loop_machine (loop_entry <$> seq 1 100))).
  by vm_compute.
Defined.

(** After 101 sends the record of the first send is gone and the other
    100 are left, oldest first. *)
Example loop_evicts_oldest :
  history <$> machines (run (loop_calls 101) constructor) !! "loop"
  = Some (loop_entry <$> seq 2 100).
Proof. by vm_compute. Qed.

(** ** Re-registration *)

Lemma map_get_set_eq {A} key (v : A) (m : list (string * A)) :
  map_get key (map_set key v m) = Some v.
Proof.
  induction m as [|[k x] rest IH]; simpl.
  - by rewrite decide_True.
  - destruct (decide (k = key)) as [->|Hne]; simpl.
    + by rewrite decide_True.
    + by rewrite decide_False.
Qed.

Lemma map_get_set_ne {A} key key' (v : A) (m : list (string * A)) :
  key ≠ key' → map_get key' (map_set key v m) = map_get key' m.
Proof.
  intros Hne. induction m as [|[k x] rest IH]; simpl.
  - by rewrite decide_False.
  - destruct (decide (k = key)) as [->|Hk]; simpl.
    + by rewrite !decide_False.
    + by destruct (decide (k = key')).
Qed.

(** [send] to a machine with a table, as a function of the entry under
    the key. *)
Lemma send_registered a now machineId event payload m table :
  machines a !! machineId = Some m →
  transitions a !! machineId = Some table →
  send now machineId event payload a
  = match map_get (currentState m +:+ ":" +:+ event) table with
    | None => no_transition machineId m event a
    | Some (Literal toState) =>
        if decide (toState = "") then no_transition machineId m event a
        else execute_transition now machineId m (currentState m) toState
               event (or_null payload) ∅ a
    | Some (Handler h) =>
        match h (context m) (or_null payload) with
        | Throws e => (Throws e, a)
        | Returns Undefined =>
            (Throws ("TypeError: Cannot read properties of undefined "
                       +:+ "(reading 'state')"), a)
        | Returns Null =>
            (Throws ("TypeError: Cannot read properties of null "
                       +:+ "(reading 'state')"), a)
        | Returns (Result result) =>
            execute_transition now machineId
              (match r_context result with
               | Some patch => set_context (spread (context m) patch) m
               | None => m
               end)
              (currentState m) (or_string (r_state result) (currentState m))
              event (or_null payload) (default ∅ (r_data result)) a
        end
    end.
Proof.
  intros Hm Ht. unfold send, bind at 1, get. rewrite Hm, Ht.
  destruct (map_get _ table) as [[toState|h]|]; [|  |done].
  - by destruct (decide (toState = "")).
  - by destruct (h (context m) (or_null payload)) as [[result| |]|e].
Qed.

Lemma map_set_fresh {A} key (v : A) (m : list (string * A)) :
  key ∉ map_keys m → map_set key v m = m ++ [(key, v)].
Proof.
  unfold map_keys. induction m as [|[k x] rest IH]; simpl; [done|].
  intros Hin. apply not_elem_of_cons in Hin as [Hne Hin].
  rewrite decide_False by done. by rewrite IH.
Qed.

Lemma set_all_fresh (entries : list (string * transition)) :
  ∀ table : transition_table,
    NoDup (map_keys table ++ (fst <$> entries)) →
    set_all table entries = table ++ entries.
Proof.
  induction entries as [|[k v] rest IH]; intros table Hnd; simpl.
  - by rewrite app_nil_r.
  - change (set_all (map_set k v table) rest = table ++ (k, v) :: rest).
    simpl in Hnd. apply NoDup_app in Hnd as (Ht & Hdisj & Hr).
    apply NoDup_cons in Hr as [Hk Hr].
    assert (Hfresh : k ∉ map_keys table).
    { intros Hin. apply (Hdisj k Hin). by left. }
    rewrite map_set_fresh by done. rewrite IH.
    + by rewrite <- app_assoc.
    + unfold map_keys in *. rewrite fmap_app. simpl. rewrite <- app_assoc.
      simpl. apply NoDup_app. repeat split; [done| |by apply NoDup_cons].
      intros x Hx Hin. apply (Hdisj x Hx). done.
Qed.

Lemma map_get_app {A} key (l1 l2 : list (string * A)) :
  map_get key (l1 ++ l2)
  = match map_get key l1 with
    | Some v => Some v
    | None => map_get key l2
    end.
Proof.
  induction l1 as [|[k v] rest IH]; simpl; [done|].
  by destruct (decide (k = key)).
Qed.

(** A lookup in the table after a run of [set] calls: the last entry set
    under the key, or what the table had. *)
Lemma set_all_get (entries : list (string * transition)) :
  ∀ (table : transition_table) (key : string),
    map_get key (set_all table entries)
    = match map_get key (reverse entries) with
      | Some t => Some t
      | None => map_get key table
      end.
Proof.
  induction entries as [|[k v] rest IH]; intros table key; [done|].
  change (set_all table ((k, v) :: rest))
    with (set_all (map_set k v table) rest).
  rewrite IH, reverse_cons, map_get_app.
  destruct (map_get key (reverse rest)); [done|]. simpl.
  destruct (decide (k = key)) as [->|Hne].
  - apply map_get_set_eq.
  - by apply map_get_set_ne.
Qed.


Lemma set_all_lookup (entries : list (string * transition)) :
  ∀ (table : transition_table) (key : string) (t : transition),
  map_get key (set_all table entries) = Some t →
  (key, t) ∈ entries ∨ map_get key table = Some t.
Proof.
  assert (Hset : ∀ (table : transition_table) k (v : transition) key t,
    map_get key (map_set k v table) = Some t →
    (key, t) = (k, v) ∨ map_get key table = Some t).
  { induction table as [|[k0 v0] rest IH]; intros k v key t; simpl.
    - destruct (decide (k = key)) as [->|]; [|done]. intros [= ->]. by left.
    - destruct (decide (k0 = k)) as [->|Hne]; simpl.
      + destruct (decide (k = key)) as [->|]; [|by right].
        intros [= ->]. by left.
      + destruct (decide (k0 = key)) as [->|]; [by right|]. apply IH. }
  induction entries as [|[k v] rest IH]; intros table key t; simpl.
  - by right.
  - intros H. destruct (IH _ _ _ H) as [Hin|Hget].
    + left. by apply elem_of_cons; right.
    + destruct (Hset _ _ _ _ _ Hget) as [->|Hold]; [|by right].
      left. by apply elem_of_cons; left.
Qed.

Lemma exec_listeners machineId c this cb :
  cb ∈ default [] (stateCallbacks (exec c this) !! machineId) →
  cb ∈ default [] (stateCallbacks this !! machineId)
  ∨ c = OnStateChange machineId cb.
Proof.
  destruct c as [now i cfg|i f e t|now i e p|i u|i l|i l|i ch|i]; simpl.
  - destruct (registerMachine_returns this now i cfg)
      as (this' & E & _ & _ & HS & _).
    rewrite E. simpl. rewrite HS.
    destruct (decide (i = machineId)) as [->|Hne].
    + rewrite lookup_insert_eq. simpl. by intros ?%elem_of_nil.
    + rewrite lookup_insert_ne by done. by left.
  - destruct (transitions this !! i) as [table|] eqn:Ht.
    + rewrite (registerTransition_registered _ _ _ _ _ table Ht). by left.
    + rewrite registerTransition_unregistered by done. by left.
  - destruct (send_cases this now i e p) as (r & this' & E & _ & HS & _).
    rewrite E. simpl. rewrite HS. by left.
  - unfold updateContext. destruct (machines this !! i); by left.
  - unfold onStateChange.
    destruct (stateCallbacks this !! i) as [callbacks|] eqn:Hc; [|by left].
    simpl. destruct (decide (i = machineId)) as [->|Hne].
    + rewrite lookup_insert_eq, Hc. simpl.
      intros [Hin| ->%list_elem_of_singleton]%elem_of_app; [by left|by right].
    + rewrite lookup_insert_ne by done. by left.
  - unfold offStateChange.
    destruct (stateCallbacks this !! i) as [callbacks|] eqn:Hc; [|by left].
    simpl. destruct (decide (i = machineId)) as [->|Hne].
    + rewrite lookup_insert_eq, Hc. simpl. intros Hin. left.
      clear Hc. induction callbacks as [|c0 rest IH]; [done|].
      simpl in Hin. destruct (decide (l_ref c0 = l_ref l)).
      * by apply elem_of_cons; right.
      * apply elem_of_cons in Hin as [->|Hin]; apply elem_of_cons; auto.
    + rewrite lookup_insert_ne by done. by left.
  - unfold reset. destruct (machines this !! i); by left.
  - destruct (decide (i = machineId)) as [->|Hne].
    + rewrite lookup_delete_eq. simpl. by intros ?%elem_of_nil.
    + rewrite lookup_delete_ne by done. by left.
Qed.

(** The listeners a machine has after [cs] were either there before or
    registered by one of the calls. *)
Lemma run_listeners machineId cs : ∀ this cb,
  cb ∈ default [] (stateCallbacks (run cs this) !! machineId) →
  cb ∈ default [] (stateCallbacks this !! machineId)
  ∨ OnStateChange machineId cb ∈ cs.
Proof.
  induction cs as [|c cs IH] using rev_ind; intros this cb; [by left|].
  rewrite run_snoc. intros [Hin| ->]%exec_listeners.
  - destruct (IH _ _ Hin) as [?|?]; [by left|right].
    apply elem_of_app. by left.
  - right. apply elem_of_app. right. by apply list_elem_of_singleton.
Qed.

(** C6: registering an identifier that is registered already replaces
    its machine by the one of the new configuration; its table by the
    table of the new configuration alone, the one a new adapter would
    get: under every key it holds the entry the configuration gives the
    key and no other, and with pairwise different keys it is the list of
    the configured entries; and its listener list by the empty list.  A
    [send] right after takes the configured transition from the new
    initial state and calls no listener, and finds no transition where
    the configuration has none; after any further calls, the listeners a
    [send] to the identifier calls were all registered by
    [onStateChange] among those calls. *)
Theorem reregister_replaces this now machineId cfg :
  is_Some (machines this !! machineId) →
  let entries := flat_entries (default [] (cfg_transitions cfg)) in
  let initial := currentState (new_machine now machineId cfg) in
  ∃ this' table,
    registerMachine now machineId cfg this
    = (Returns (new_machine now machineId cfg), this')
    ∧ console this'
      = console this ++ [("warn", "Machine " +:+ machineId
                                    +:+ " already registered, overwriting")]
    ∧ machines this' !! machineId = Some (new_machine now machineId cfg)
    ∧ transitions this' !! machineId = Some table
    ∧ (∀ key, map_get key table = configured cfg key)
    ∧ (∀ key t, map_get key table = Some t → (key, t) ∈ entries)
    ∧ (distinct_keys entries → table = entries)
    ∧ transitions (registerMachine now machineId cfg constructor).2 !! machineId
      = Some table
    ∧ stateCallbacks this' !! machineId = Some []
    ∧ (∀ now' event payload toState,
         configured cfg (initial +:+ ":" +:+ event) = Some (Literal toState) →
         toState ≠ "" →
         ∃ this'',
           send now' machineId event payload this'
           = (Returns {| success := true; res_fromState := initial;
                         res_toState := toState; res_event := event;
                         res_context := Some (default ∅ (cfg_context cfg)) |},
              this'')
           ∧ calls this'' = calls this')
    ∧ (∀ now' event payload,
         configured cfg (initial +:+ ":" +:+ event) = None →
         ∃ this'',
           send now' machineId event payload this'
           = (Returns {| success := false; res_fromState := initial;
                         res_toState := initial; res_event := event;
                         res_context := None |}, this''))
    ∧ ∀ cs now' event payload,
        let before := run cs this' in
        let after := (send now' machineId event payload before).2 in
        ∃ changeData callbacks,
          calls after = calls before ++ invocations changeData callbacks
          ∧ ∀ cb, cb ∈ callbacks → OnStateChange machineId cb ∈ cs.
Proof.
  intros Hreg entries initial.
  destruct (registerMachine_returns this now machineId cfg)
    as (this' & E & HM & HT & HS & HC & HL).
  destruct (registerMachine_returns constructor now machineId cfg)
    as (fresh & E' & _ & HT' & _).
  fold entries in HT, HT'.
  assert (Hm : machines this' !! machineId = Some (new_machine now machineId cfg))
    by (by rewrite HM, lookup_insert_eq).
  assert (Ht : transitions this' !! machineId = Some (set_all [] entries))
    by (by rewrite HT, lookup_insert_eq).
  assert (Hs : stateCallbacks this' !! machineId = Some [])
    by (by rewrite HS, lookup_insert_eq).
  assert (Hget : ∀ key, map_get key (set_all [] entries) = configured cfg key).
  { intros key. rewrite set_all_get. unfold configured. fold entries.
    by destruct (map_get key (reverse entries)). }
  exists this', (set_all [] entries).
  split; [exact E|].
  split; [by rewrite HL, decide_True|].
  do 3 (split; [done|]).
  split.
  { intros key t Hk. by destruct (set_all_lookup _ _ _ _ Hk). }
  split.
  { intros Hnd. by rewrite set_all_fresh. }
  split; [by rewrite E'; simpl; rewrite HT', lookup_insert_eq|].
  split; [done|].
  split.
  { intros now' event payload toState Hk Hne.
    rewrite (send_registered this' now' machineId event payload _ _ Hm Ht).
    fold initial. rewrite Hget, Hk, decide_False by done.
    run_execute as (this'' & Es & _ & _ & _ & Hcalls & _).
    exists this''. split; [exact Es|].
    rewrite Hcalls, Hs. apply app_nil_r. }
  split.
  { intros now' event payload Hk.
    rewrite (send_registered this' now' machineId event payload _ _ Hm Ht).
    fold initial. rewrite Hget, Hk.
    unfold no_transition, bind, modify, ret. by eexists. }
  intros cs now' event payload before after.
  assert (Hcbs : ∀ cb,
    cb ∈ default [] (stateCallbacks before !! machineId) →
    OnStateChange machineId cb ∈ cs).
  { intros cb Hin. destruct (run_listeners machineId cs this' cb Hin) as [H|H];
      [|done].
    rewrite Hs in H. simpl in H. by apply elem_of_nil in H. }
  subst after.
  destruct (send_cases before now' machineId event payload)
    as (c & a & Es & _ & _ & [(_ & Hcalls & _)|(m & mm & to & cd & _ & _ & _ & _ & Hcalls)]);
    rewrite Es; simpl.
  - exists ∅, []. split; [by rewrite Hcalls, app_nil_r|].
    by intros cb ?%elem_of_nil.
  - by exists cd, (default [] (stateCallbacks before !! machineId)).
Qed.

Lemma reregister_replaces_witness :
  let entries := flat_entries (default [] (cfg_transitions loop_config)) in
  let initial := currentState (new_machine 5 "turnstile" loop_config) in
  ∃ this' table,
    registerMachine 5 "turnstile" loop_config watched
    = (Returns (new_machine 5 "turnstile" loop_config), this')
    ∧ console this'
      = console watched
          ++ [("warn", "Machine " +:+ "turnstile"
                         +:+ " already registered, overwriting")]
    ∧ machines this' !! "turnstile"
      = Some (new_machine 5 "turnstile" loop_config)
    ∧ transitions this' !! "turnstile" = Some table
    ∧ (∀ key, map_get key table = configured loop_config key)
    ∧ (∀ key t, map_get key table = Some t → (key, t) ∈ entries)
    ∧ (distinct_keys entries → table = entries)
    ∧ transitions (registerMachine 5 "turnstile" loop_config constructor).2
        !! "turnstile"
      = Some table
    ∧ stateCallbacks this' !! "turnstile" = Some []
    ∧ (∀ now' event payload toState,
         configured loop_config (initial +:+ ":" +:+ event)
         = Some (Literal toState) →
         toState ≠ "" →
         ∃ this'',
           send now' "turnstile" event payload this'
           = (Returns {| success := true; res_fromState := initial;
                         res_toState := toState; res_event := event;
                         res_context := Some (default ∅ (cfg_context loop_config)) |},
              this'')
           ∧ calls this'' = calls this')
    ∧ (∀ now' event payload,
         configured loop_config (initial +:+ ":" +:+ event) = None →
         ∃ this'',
           send now' "turnstile" event payload this'
           = (Returns {| success := false; res_fromState := initial;
                         res_toState := initial; res_event := event;
                         res_context := None |}, this''))
    ∧ ∀ cs now' event payload,
        let before := run cs this' in
        let after := (send now' "turnstile" event payload before).2 in
        ∃ changeData callbacks,
          calls after = calls before ++ invocations changeData callbacks
          ∧ ∀ cb, cb ∈ callbacks → OnStateChange "turnstile" cb ∈ cs.
Proof.
  apply (reregister_replaces watched 5 "turnstile" loop_config).
  exists turnstile_machine. by vm_compute.
Defined.

(** After the turnstile is registered again, its old COIN transition is
    gone and the two old listeners are not called by a send that
    succeeds. *)
Example reregistered_turnstile :
  let again := (registerMachine 5 "turnstile" loop_config watched).2 in
  (send 6 "turnstile" "COIN" VNull again).1
  = Returns {| success := false; res_fromState := "a"; res_toState := "a";
               res_event := "COIN"; res_context := None |}
  ∧ (send 6 "turnstile" "GO" VNull again).1
    = Returns {| success := true; res_fromState := "a"; res_toState := "a";
                 res_event := "GO"; res_context := Some ∅ |}
  ∧ calls (send 6 "turnstile" "GO" VNull again).2 = [].
Proof. by vm_compute. Qed.

(** ** [reset] *)

(** [reset] on a registered machine: the state picked from the table,
    an empty context, and the history emptied only on request. *)
Lemma reset_effect this machineId clearHistory m :
  machines this !! machineId = Some m →
  ∃ m',
    machines (reset machineId clearHistory this) !! machineId = Some m'
    ∧ currentState m' = reset_state (transitions this !! machineId)
    ∧ context m' = ∅
    ∧ history m' = (if default false clearHistory then [] else history m).
Proof.
  intros Hm. unfold reset. rewrite Hm. simpl. rewrite lookup_insert_eq.
  eexists. split; [reflexivity|]. by destruct (default false clearHistory).
Qed.

Lemma split_nonempty sep s : split sep s ≠ [].
Proof.
  destruct s as [|c s]; simpl; [done|].
  destruct (decide (c = sep)); [done|]. by destruct (split sep s).
Qed.

Lemma reset_state_empty : reset_state (Some []) = "idle".
Proof. reflexivity. Qed.

Lemma split_head_colon_free from rest :
  contains ":" from = false →
  head (split ":" (from +:+ ":" +:+ rest)) = Some from.
Proof.
  induction from as [|c from IH]; simpl; intros Hc.
  - done.
  - apply orb_false_iff in Hc as [Hc1 Hc2].
    apply bool_decide_eq_false in Hc1. rewrite decide_False by done.
    specialize (IH Hc2).
    destruct (split ":" (from +:+ ":" +:+ rest)) as [|seg segs]; [done|].
    simpl in *. congruence.
Qed.

(** With a first source state free of colons, [reset] picks that state. *)
Lemma reset_state_first from event t rest :
  contains ":" from = false →
  reset_state (Some ((from +:+ ":" +:+ event, t) :: rest)) = from.
Proof.
  intros Hc. unfold reset_state. simpl.
  change (String ":" event) with (":" +:+ event).
  by rewrite split_head_colon_free.
Qed.

(** C8, the code at the failing input: the first and only transition of
    "m" leaves the state "a:b"; [reset] puts the machine into "a". *)
Theorem reset_cuts_state_at_colon :
  transitions colon !! "m" = Some [("a:b" +:+ ":" +:+ "GO", Literal "c")]
  ∧ getState "m" colon = Some "a:b"
  ∧ getState "m" (reset "m" None colon) = Some "a".
Proof. by vm_compute. Qed.

(** ** Keys of the transition table *)

(** [registerTransition] writes the entry under its key and leaves the
    entries under every other key. *)
Lemma registerTransition_one_key this machineId fromState event t table :
  transitions this !! machineId = Some table →
  ∃ table',
    transitions (registerTransition machineId fromState event t this).2
      !! machineId = Some table'
    ∧ map_get (fromState +:+ ":" +:+ event) table' = Some t
    ∧ ∀ key, key ≠ fromState +:+ ":" +:+ event →
        map_get key table' = map_get key table.
Proof.
  intros Ht. rewrite (registerTransition_registered _ _ _ _ _ table Ht).
  simpl. rewrite lookup_insert_eq. eexists. split; [reflexivity|].
  split; [apply map_get_set_eq|].
  intros key Hne. by apply map_get_set_ne.
Qed.

Lemma append_empty (s : string) : "" +:+ s = s.
Proof. reflexivity. Qed.

Lemma append_String (c : ascii) (s t : string) :
  String c s +:+ t = String c (s +:+ t).
Proof. reflexivity. Qed.

Lemma append_colon_free from1 rest1 : ∀ from2 rest2,
  contains ":" from1 = false →
  contains ":" from2 = false →
  from1 +:+ ":" +:+ rest1 = from2 +:+ ":" +:+ rest2 →
  from1 = from2 ∧ rest1 = rest2.
Proof.
  induction from1 as [|c from1 IH]; intros [|c2 from2] rest2 H1 H2 E;
    rewrite ?append_String, ?append_empty in E; simpl in H1, H2.
  - by injection E as ->.
  - injection E as <- _. by rewrite bool_decide_eq_true_2 in H2.
  - injection E as -> _. by rewrite bool_decide_eq_true_2 in H1.
  - injection E as <- E.
    apply orb_false_iff in H1 as [_ H1]. apply orb_false_iff in H2 as [_ H2].
    destruct (IH from2 rest2 H1 H2 E) as [-> ->]. done.
Qed.

(** Pairs whose source states are free of colons have different keys
    when they differ. *)
Lemma key_injective from1 event1 from2 event2 :
  contains ":" from1 = false →
  contains ":" from2 = false →
  (from1, event1) ≠ (from2, event2) →
  from1 +:+ ":" +:+ event1 ≠ from2 +:+ ":" +:+ event2.
Proof.
  intros H1 H2 Hne E.
  destruct (append_colon_free _ _ _ _ H1 H2 E) as [-> ->]. done.
Qed.

(** C9, the code at the failing input: the pairs ("a:b", "c") and
    ("a", "b:c") differ, and registering the second overwrites the entry
    of the first: the table holds one entry, and a machine in state "a"
    takes it on the event "b:c". *)
Theorem colliding_pairs_share_entry :
  ("a:b", "c") ≠ ("a", "b:c")
  ∧ transitions collided !! "m" = Some [("a:b:c", Literal "Y")]
  ∧ (send 1 "m" "b:c" VNull collided).1
    = Returns {| success := true; res_fromState := "a"; res_toState := "Y";
                 res_event := "b:c"; res_context := Some ∅ |}.
Proof. split; [done|]. by vm_compute. Qed.

(** ** [getHistory] *)

Lemma getHistory_unknown this machineId limit :
  machines this !! machineId = None → getHistory machineId limit this = [].
Proof. intros H. unfold getHistory. by rewrite H. Qed.

Lemma getHistory_default this machineId :
  getHistory machineId None this = getHistory machineId (Some 10%Z) this.
Proof. reflexivity. Qed.

(** X19: for a limit of at least 1, [getHistory] returns the last
    [limit] entries of the history, oldest first: min(limit, length) of
    them. *)
Lemma getHistory_positive this machineId m (limit : nat) :
  machines this !! machineId = Some m →
  0 < limit →
  getHistory machineId (Some (Z.of_nat limit)) this = last_n limit (history m)
  ∧ length (getHistory machineId (Some (Z.of_nat limit)) this)
    = min limit (length (history m)).
Proof.
  intros Hm Hl. unfold getHistory. rewrite Hm. simpl.
  rewrite slice_from_negative by done. split; [done|apply length_last_n].
Qed.

(** With the limit 0 the whole history comes back. *)
Lemma getHistory_zero this machineId m :
  machines this !! machineId = Some m →
  getHistory machineId (Some 0%Z) this = history m.
Proof.
  intros Hm. unfold getHistory. rewrite Hm. simpl. unfold slice_from.
  change (- 0)%Z with 0%Z. change (0 <? 0)%Z with false. cbv iota.
  by replace (Z.min 0 (Z.of_nat (length (history m)))) with 0%Z by lia.
Qed.

(** C10, the code at the failing input: after three sends,
    [getHistory("loop", 0)] returns all three entries, not none. *)
Theorem getHistory_zero_returns_all :
  getHistory "loop" (Some 0%Z) (run (loop_calls 3) constructor)
  = [loop_entry 1; loop_entry 2; loop_entry 3].
Proof. by vm_compute. Qed.

(** * Further properties of the methods *)

(** ** [send]: literal transitions, frame and errors *)

Lemma plain_change_data fromState toState event payload context :
  change_data fromState toState event payload context ∅
  = plain_change fromState toState event payload context.
Proof. unfold change_data, spread, plain_change. by rewrite (left_id_L ∅ (∪)). Qed.

(** X1: a literal transition under the key of (currentState, event) with
    a non-empty label makes [send] succeed with that label as target: the
    machine is in the target state, its context is as before, and every
    listener of the machine is called once with the five-property
    notification of the transition. *)
Theorem send_literal this now machineId event payload m table toState :
  machines this !! machineId = Some m →
  transitions this !! machineId = Some table →
  map_get (currentState m +:+ ":" +:+ event) table = Some (Literal toState) →
  toState ≠ "" →
  ∃ this',
    send now machineId event payload this
    = (Returns {| success := true; res_fromState := currentState m;
                  res_toState := toState; res_event := event;
                  res_context := Some (context m) |}, this')
    ∧ getState machineId this' = Some toState
    ∧ getContext machineId this' = Some (context m)
    ∧ calls this'
      = calls this
          ++ invocations
               (plain_change (currentState m) toState event (or_null payload)
                  (context m))
               (default [] (stateCallbacks this !! machineId)).
Proof.
  intros Hm Ht Hk Hne. unfold send, bind at 1, get. rewrite Hm, Ht, Hk.
  rewrite decide_False by done.
  run_execute as (this' & E & HM & _ & _ & HC & _).
  exists this'. split; [exact E|].
  unfold getState, getContext. rewrite HM, lookup_insert_eq. simpl.
  do 2 (split; [done|]). by rewrite HC, plain_change_data.
Qed.

Lemma send_literal_witness :
  ∃ this',
    send 1 "turnstile" "COIN" VNull watched
    = (Returns {| success := true; res_fromState := "locked";
                  res_toState := "unlocked"; res_event := "COIN";
                  res_context := Some ∅ |}, this')
    ∧ getState "turnstile" this' = Some "unlocked"
    ∧ getContext "turnstile" this' = Some ∅
    ∧ calls this'
      = calls watched
          ++ invocations (plain_change "locked" "unlocked" "COIN" VNull ∅)
               (default [] (stateCallbacks watched !! "turnstile")).
Proof.
  apply (send_literal watched 1 "turnstile" "COIN" VNull turnstile_machine
           turnstile_table "unlocked"); by vm_compute.
Defined.

(** X2: whatever [send] to one machine does, returning or throwing, every
    other machine is as before, and so are all tables and all listener
    lists. *)
Theorem send_frame this now machineId event payload other :
  other ≠ machineId →
  let this' := (send now machineId event payload this).2 in
  machines this' !! other = machines this !! other
  ∧ transitions this' = transitions this
  ∧ stateCallbacks this' = stateCallbacks this.
Proof.
  intros Hne this'. subst this'.
  destruct (send_cases this now machineId event payload)
    as (c & a & E & HT & HS & H).
  rewrite E. simpl. split; [|done].
  destruct H as [(-> & _)|(m & mm & to & cd & _ & _ & _ & -> & _)]; [done|].
  by rewrite lookup_insert_ne.
Qed.

Lemma send_frame_witness :
  is_Some (machines both !! "checkout")
  ∧ let this' := (send 1 "turnstile" "COIN" VNull both).2 in
    machines this' !! "checkout" = machines both !! "checkout"
    ∧ transitions this' = transitions both
    ∧ stateCallbacks this' = stateCallbacks both.
Proof.
  split; [by exists (new_machine 3 "checkout" checkout_config)|].
  apply (send_frame both 1 "turnstile" "COIN" VNull "checkout").
  by vm_compute.
Defined.

(** X3: a table entry that is the empty label counts as no transition:
    [send] returns success=false with the unchanged state and changes
    neither the machines nor the record of listener calls. *)
Theorem send_empty_label_fails this now machineId event payload m table :
  machines this !! machineId = Some m →
  transitions this !! machineId = Some table →
  map_get (currentState m +:+ ":" +:+ event) table = Some (Literal "") →
  ∃ this',
    send now machineId event payload this
    = (Returns {| success := false; res_fromState := currentState m;
                  res_toState := currentState m; res_event := event;
                  res_context := None |}, this')
    ∧ same_maps this this'
    ∧ calls this' = calls this.
Proof.
  intros Hm Ht Hk.
  rewrite (send_empty_label this now machineId event payload m table Hm Ht Hk).
  unfold no_transition, bind, modify, ret.
  eexists. split; [reflexivity|]. simpl. by repeat split.
Qed.

Lemma send_empty_label_fails_witness :
  ∃ this',
    send 1 "m" "GO" VNull muted
    = (Returns {| success := false; res_fromState := "a";
                  res_toState := "a"; res_event := "GO";
                  res_context := None |}, this')
    ∧ same_maps muted this'
    ∧ calls this' = calls muted.
Proof.
  apply (send_empty_label_fails muted 1 "m" "GO" VNull bare_machine
           [("a:GO", Literal "")]); by vm_compute.
Defined.

Lemma send_handler_throws_witness :
  send 1 "checkout" "PAY" VUndefined checkout
  = (Throws "TypeError: Cannot read properties of null (reading 'amount')",
     checkout).
Proof.
  apply (send_handler_throws checkout 1 "checkout" "PAY" VUndefined
           checkout_machine checkout_table pay); by vm_compute.
Defined.

(** X5: whenever [send] returns a result, successful or not, the machine
    is in the state the result reports as [toState], and the result
    carries the event that was sent. *)
Theorem send_result_state this now machineId event payload r this' :
  send now machineId event payload this = (Returns r, this') →
  getState machineId this' = Some (res_toState r)
  ∧ isInState machineId (res_toState r) this' = true
  ∧ res_event r = event.
Proof.
  unfold send, bind at 1, get.
  destruct (machines this !! machineId) as [m|] eqn:Hm; [|done].
  destruct (transitions this !! machineId) as [table|]; [|done].
  assert (Hno : no_transition machineId m event this = (Returns r, this') →
    getState machineId this' = Some (res_toState r)
    ∧ isInState machineId (res_toState r) this' = true
    ∧ res_event r = event).
  { unfold no_transition, bind, modify, ret. intros [= <- <-].
    unfold getState, isInState. simpl. rewrite Hm. simpl.
    by rewrite bool_decide_eq_true_2. }
  assert (Hex : ∀ mm toState d,
    execute_transition now machineId mm (currentState m) toState event
      (or_null payload) d this = (Returns r, this') →
    getState machineId this' = Some (res_toState r)
    ∧ isInState machineId (res_toState r) this' = true
    ∧ res_event r = event).
  { intros mm toState d.
    destruct (execute_transition_returns now machineId mm (currentState m)
                toState event (or_null payload) d this)
      as (a & E & HM & _).
    rewrite E. intros [= <- <-]. unfold getState, isInState.
    rewrite HM, lookup_insert_eq. simpl. by rewrite bool_decide_eq_true_2. }
  destruct (map_get _ table) as [[toState|h]|]; [| |exact Hno].
  - destruct (decide (toState = "")); [exact Hno|apply Hex].
  - destruct (h (context m) (or_null payload)) as [[result| |]|e];
      [apply Hex|done..].
Qed.

Lemma send_result_state_witness :
  getState "turnstile" (send 1 "turnstile" "COIN" VNull turnstile).2
  = Some (res_toState
            {| success := true; res_fromState := "locked";
               res_toState := "unlocked"; res_event := "COIN";
               res_context := Some ∅ |})
  ∧ isInState "turnstile"
      (res_toState
         {| success := true; res_fromState := "locked";
            res_toState := "unlocked"; res_event := "COIN";
            res_context := Some ∅ |})
      (send 1 "turnstile" "COIN" VNull turnstile).2 = true
  ∧ res_event
      {| success := true; res_fromState := "locked";
         res_toState := "unlocked"; res_event := "COIN";
         res_context := Some ∅ |} = "COIN".
Proof.
  apply (send_result_state turnstile 1 "turnstile" "COIN" VNull).
  by vm_compute.
Defined.

Lemma last_n_snoc {A} (l : list A) (x : A) : last_n 1 (l ++ [x]) = [x].
Proof.
  unfold last_n. rewrite length_app. simpl.
  replace (length l + 1 - 1) with (length l) by lia.
  by rewrite drop_app_length.
Qed.

Lemma last_n_last_n {A} (n k : nat) (l : list A) :
  n ≤ k → last_n n (last_n k l) = last_n n l.
Proof.
  intros Hnk. unfold last_n. rewrite drop_drop, length_drop. f_equal. lia.
Qed.

(** X6: right after a successful [send], [getHistory(id, 1)] is exactly
    the record of that transition: the state before, the target, the
    event, the payload with [undefined] read as [null], and the time. *)
Theorem send_then_getHistory this now machineId event payload m r this' :
  machines this !! machineId = Some m →
  send now machineId event payload this = (Returns r, this') →
  success r = true →
  getHistory machineId (Some 1%Z) this'
  = [pushed_entry now m (res_toState r) event payload].
Proof.
  intros Hm Hs Hr.
  destruct (send_cases this now machineId event payload)
    as (c & a & E & _ & _ & H).
  rewrite Hs in E. injection E as <- <-.
  destruct H as [(_ & _ & Hf)|(m0 & mm & to & cd & Hm0 & Hh & Hc & HM & _)].
  { rewrite (Hf r eq_refl) in Hr. discriminate. }
  rewrite Hm in Hm0. injection Hm0 as <-. injection Hc as ->.
  unfold getHistory. cbv zeta.
  change (default 10%Z (Some 1%Z)) with (Z.of_nat 1).
  rewrite HM, lookup_insert_eq, slice_from_negative by lia.
  cbn [res_toState].
  rewrite transitioned_history, last_n_last_n by lia.
  rewrite Hh. apply last_n_snoc.
Qed.

Lemma send_then_getHistory_witness :
  getHistory "turnstile" (Some 1%Z) (send 7 "turnstile" "COIN" VNull turnstile).2
  = [pushed_entry 7 turnstile_machine
       (res_toState
          {| success := true; res_fromState := "locked";
             res_toState := "unlocked"; res_event := "COIN";
             res_context := Some ∅ |})
       "COIN" VNull].
Proof.
  apply (send_then_getHistory turnstile 7 "turnstile" "COIN" VNull
           turnstile_machine); by vm_compute.
Defined.

(** X7: on an adapter built by its methods, [send] throws in three
    cases only: the identifier has no machine, and the error is "Machine
    <id> not found"; the handler of the transition throws, and the error
    is the handler's; or the handler returns [undefined] or [null], and
    the error is the [TypeError] of reading [result.state]. *)
Theorem send_throws_only this now machineId event payload e this' :
  reachable this →
  send now machineId event payload this = (Throws e, this') →
  (machines this !! machineId = None
   ∧ e = "Machine " +:+ machineId +:+ " not found")
  ∨ ∃ m table h,
      machines this !! machineId = Some m
      ∧ transitions this !! machineId = Some table
      ∧ map_get (currentState m +:+ ":" +:+ event) table = Some (Handler h)
      ∧ (h (context m) (or_null payload) = Throws e
         ∨ (h (context m) (or_null payload) = Returns Undefined
            ∧ e = "TypeError: Cannot read properties of undefined "
                    +:+ "(reading 'state')")
         ∨ (h (context m) (or_null payload) = Returns Null
            ∧ e = "TypeError: Cannot read properties of null "
                    +:+ "(reading 'state')")).
Proof.
  intros Hreach. unfold send, bind at 1, get.
  destruct (machines this !! machineId) as [m|] eqn:Hm;
    [|intros [= <- _]; by left].
  destruct (registered_has_table this machineId m Hreach Hm)
    as (table & callbacks & Ht & _).
  rewrite Ht.
  assert (Hno : ∀ T : Prop,
    no_transition machineId m event this = (Throws e, this') → T).
  { unfold no_transition, bind, modify, ret. intros T H. discriminate H. }
  assert (Hex : ∀ (T : Prop) mm toState d,
    execute_transition now machineId mm (currentState m) toState event
      (or_null payload) d this = (Throws e, this') → T).
  { intros T mm toState d.
    destruct (execute_transition_returns now machineId mm (currentState m)
                toState event (or_null payload) d this) as (a & E & _).
    rewrite E. intros H. discriminate H. }
  destruct (map_get _ table) as [[toState|h]|] eqn:Hk; [| |apply Hno].
  - destruct (decide (toState = "")); [apply Hno|apply Hex].
  - destruct (h (context m) (or_null payload)) as [[result| |]|e'] eqn:Hh;
      [apply Hex|..]; intros [= <- _]; right; exists m, table, h;
      (do 3 (split; [done|])); auto.
Qed.

Lemma send_throws_only_witness :
  (machines flaky !! "job" = None
   ∧ "TypeError: Cannot read properties of undefined (reading 'state')"
     = "Machine " +:+ "job" +:+ " not found")
  ∨ ∃ m table h,
      machines flaky !! "job" = Some m
      ∧ transitions flaky !! "job" = Some table
      ∧ map_get (currentState m +:+ ":" +:+ "RUN") table = Some (Handler h)
      ∧ (h (context m) (or_null VNull)
         = Throws "TypeError: Cannot read properties of undefined (reading 'state')"
         ∨ (h (context m) (or_null VNull) = Returns Undefined
            ∧ "TypeError: Cannot read properties of undefined (reading 'state')"
              = "TypeError: Cannot read properties of undefined "
                  +:+ "(reading 'state')")
         ∨ (h (context m) (or_null VNull) = Returns Null
            ∧ "TypeError: Cannot read properties of undefined (reading 'state')"
              = "TypeError: Cannot read properties of null "
                  +:+ "(reading 'state')")).
Proof.
  apply (send_throws_only flaky 1 "job" "RUN" VNull
           "TypeError: Cannot read properties of undefined (reading 'state')"
           flaky).
  - by exists [RegisterMachine 0 "job" flaky_config].
  - by vm_compute.
Defined.

(** A handler without a [return] makes [send] throw and leaves the
    machine where it was; one that throws does the same with its own
    error. *)
Example flaky_sends :
  send 1 "job" "RUN" VNull flaky
  = (Throws "TypeError: Cannot read properties of undefined (reading 'state')",
     flaky)
  ∧ send 1 "job" "FAIL" VNull flaky = (Throws "out of luck", flaky).
Proof. by vm_compute. Qed.

(** ** The three maps of the adapter *)

(** X8: on an adapter built by its methods the three maps have the same
    keys: an identifier has a machine exactly when it has a transition
    table, and exactly when it has a listener list. *)
Theorem maps_share_keys this machineId :
  reachable this →
  (is_Some (machines this !! machineId)
   ↔ is_Some (transitions this !! machineId))
  ∧ (is_Some (machines this !! machineId)
     ↔ is_Some (stateCallbacks this !! machineId)).
Proof.
  intros [HT HS]%reachable_consistent.
  rewrite <- !elem_of_dom, HT, HS. done.
Qed.

Lemma maps_share_keys_witness :
  (is_Some (machines watched !! "turnstile")
   ↔ is_Some (transitions watched !! "turnstile"))
  ∧ (is_Some (machines watched !! "turnstile")
     ↔ is_Some (stateCallbacks watched !! "turnstile")).
Proof.
  apply (maps_share_keys watched "turnstile").
  by exists [RegisterMachine 0 "turnstile" turnstile_config;
             OnStateChange "turnstile" boom; OnStateChange "turnstile" quiet].
Defined.

Lemma unregistered_has_nothing this machineId :
  reachable this →
  machines this !! machineId = None →
  transitions this !! machineId = None
  ∧ stateCallbacks this !! machineId = None.
Proof.
  intros [HT HS]%reachable_consistent Hm.
  rewrite <- !not_elem_of_dom, HT, HS. by rewrite !not_elem_of_dom.
Qed.

(** ** [registerTransition] *)

(** X9: on an adapter built by its methods, [registerTransition] for an
    identifier without a machine throws "Machine <id> not registered" and
    creates nothing: the adapter is as before. *)
Theorem registerTransition_unknown_throws this machineId fromState event t :
  reachable this →
  machines this !! machineId = None →
  registerTransition machineId fromState event t this
  = (Throws ("Machine " +:+ machineId +:+ " not registered"), this).
Proof.
  intros Hr Hm. apply registerTransition_unregistered.
  by apply unregistered_has_nothing.
Qed.

Lemma registerTransition_unknown_throws_witness :
  registerTransition "ghost" "a" "GO" (Literal "b") turnstile
  = (Throws ("Machine " +:+ "ghost" +:+ " not registered"), turnstile).
Proof.
  apply (registerTransition_unknown_throws turnstile "ghost" "a" "GO"
           (Literal "b")).
  - by exists [RegisterMachine 0 "turnstile" turnstile_config].
  - by vm_compute.
Defined.

(** X10: a transition registered from the machine's current state is the
    one the next [send] of its event takes, whatever entry the key had
    before: the machine moves to the registered non-empty label. *)
Theorem registerTransition_then_send this now machineId event payload m table
    toState :
  machines this !! machineId = Some m →
  transitions this !! machineId = Some table →
  toState ≠ "" →
  let registered :=
    (registerTransition machineId (currentState m) event (Literal toState)
       this).2 in
  ∃ this',
    send now machineId event payload registered
    = (Returns {| success := true; res_fromState := currentState m;
                  res_toState := toState; res_event := event;
                  res_context := Some (context m) |}, this')
    ∧ getState machineId this' = Some toState.
Proof.
  intros Hm Ht Hne registered. subst registered.
  rewrite (registerTransition_registered _ _ _ _ _ table Ht). simpl.
  unfold send, bind at 1, get. simpl.
  rewrite Hm, lookup_insert_eq, map_get_set_eq, decide_False by done.
  run_execute as (this' & E & HM & _).
  exists this'. split; [exact E|].
  unfold getState. by rewrite HM, lookup_insert_eq.
Qed.

Lemma registerTransition_then_send_witness :
  let registered :=
    (registerTransition "turnstile" "locked" "KICK" (Literal "broken")
       turnstile).2 in
  ∃ this',
    send 1 "turnstile" "KICK" VNull registered
    = (Returns {| success := true; res_fromState := "locked";
                  res_toState := "broken"; res_event := "KICK";
                  res_context := Some ∅ |}, this')
    ∧ getState "turnstile" this' = Some "broken".
Proof.
  apply (registerTransition_then_send turnstile 1 "turnstile" "KICK" VNull
           turnstile_machine turnstile_table "broken"); by vm_compute.
Defined.

(** The completion of [send] is decided by the machine and by the table
    entry under the key of its state and the event. *)
Lemma send_completion_same a b now machineId event payload m table table' :
  machines a !! machineId = Some m →
  machines b !! machineId = Some m →
  transitions a !! machineId = Some table →
  transitions b !! machineId = Some table' →
  map_get (currentState m +:+ ":" +:+ event) table'
  = map_get (currentState m +:+ ":" +:+ event) table →
  (send now machineId event payload b).1
  = (send now machineId event payload a).1.
Proof.
  intros Ha Hb Hta Htb Hk.
  rewrite (send_registered a now machineId event payload m table Ha Hta).
  rewrite (send_registered b now machineId event payload m table' Hb Htb), Hk.
  assert (Hex : ∀ mm toState d,
    (execute_transition now machineId mm (currentState m) toState event
       (or_null payload) d b).1
    = (execute_transition now machineId mm (currentState m) toState event
         (or_null payload) d a).1).
  { intros mm toState d.
    destruct (execute_transition_returns now machineId mm (currentState m)
                toState event (or_null payload) d a) as (a' & -> & _).
    by destruct (execute_transition_returns now machineId mm (currentState m)
                   toState event (or_null payload) d b) as (b' & -> & _). }
  destruct (map_get _ table) as [[toState|h]|]; [| |done].
  - by destruct (decide (toState = "")).
  - by destruct (h (context m) (or_null payload)) as [[result| |]|e].
Qed.

(** X11: when neither source state contains a colon, registering a
    transition for one pair (fromState, event) does not change what
    [send] returns for a machine whose (currentState, event) is another
    pair. *)
Theorem registerTransition_other_pair this now machineId fromState event t m
    table sent payload :
  machines this !! machineId = Some m →
  transitions this !! machineId = Some table →
  contains ":" fromState = false →
  contains ":" (currentState m) = false →
  (fromState, event) ≠ (currentState m, sent) →
  (send now machineId sent payload
     (registerTransition machineId fromState event t this).2).1
  = (send now machineId sent payload this).1.
Proof.
  intros Hm Ht Hf Hc Hne.
  rewrite (registerTransition_registered _ _ _ _ _ table Ht). simpl.
  eapply send_completion_same; [exact Hm|exact Hm|exact Ht| |].
  - simpl. apply lookup_insert_eq.
  - apply map_get_set_ne. by apply key_injective.
Qed.

Lemma registerTransition_other_pair_witness :
  (send 1 "turnstile" "COIN" VNull
     (registerTransition "turnstile" "locked" "KICK" (Literal "broken")
        turnstile).2).1
  = (send 1 "turnstile" "COIN" VNull turnstile).1.
Proof.
  apply (registerTransition_other_pair turnstile 1 "turnstile" "locked" "KICK"
           (Literal "broken") turnstile_machine turnstile_table "COIN" VNull);
    by vm_compute.
Defined.

(** ** [registerMachine] *)

(** X12: right after [registerMachine] the machine is in the configured
    initial state, or in "idle" when the configuration names none or
    names the empty label; its context is the configured one or empty;
    its history is empty; and no listener has been called. *)
Theorem registerMachine_getters this now machineId cfg :
  let this' := (registerMachine now machineId cfg this).2 in
  getState machineId this'
  = Some (match cfg_initialState cfg with
          | Some s => if decide (s = "") then "idle" else s
          | None => "idle"
          end)
  ∧ getContext machineId this' = Some (default ∅ (cfg_context cfg))
  ∧ (∀ limit, getHistory machineId limit this' = [])
  ∧ calls this' = calls this.
Proof.
  intros this'. subst this'.
  destruct (registerMachine_returns this now machineId cfg)
    as (this' & E & HM & _ & _ & HC & _).
  rewrite E. simpl. unfold getState, getContext, getHistory.
  rewrite HM, lookup_insert_eq. simpl. repeat split; try done.
  intros limit. unfold slice_from. simpl. by rewrite drop_nil.
Qed.

(** X13: [registerMachine] for one identifier leaves every other
    identifier's machine, table and listener list as they were. *)
Theorem registerMachine_frame this now machineId cfg other :
  other ≠ machineId →
  let this' := (registerMachine now machineId cfg this).2 in
  machines this' !! other = machines this !! other
  ∧ transitions this' !! other = transitions this !! other
  ∧ stateCallbacks this' !! other = stateCallbacks this !! other.
Proof.
  intros Hne this'. subst this'.
  destruct (registerMachine_returns this now machineId cfg)
    as (this' & E & HM & HT & HS & _).
  rewrite E. simpl. rewrite HM, HT, HS.
  by rewrite !lookup_insert_ne.
Qed.

Lemma registerMachine_frame_witness :
  let this' := (registerMachine 5 "checkout" checkout_config watched).2 in
  machines this' !! "turnstile" = machines watched !! "turnstile"
  ∧ transitions this' !! "turnstile" = transitions watched !! "turnstile"
  ∧ stateCallbacks this' !! "turnstile" = stateCallbacks watched !! "turnstile".
Proof.
  apply (registerMachine_frame watched 5 "checkout" checkout_config
           "turnstile").
  by vm_compute.
Defined.

(** X14: when the keys built from the configured (fromState, event)
    pairs are pairwise different, the table [registerMachine] leaves is
    the list of the configured entries under their keys, in the order of
    the configuration. *)
Theorem registerMachine_table this now machineId cfg entries :
  cfg_transitions cfg = Some entries →
  distinct_keys (flat_entries entries) →
  transitions (registerMachine now machineId cfg this).2 !! machineId
  = Some (flat_entries entries).
Proof.
  intros Hcfg Hnd.
  destruct (registerMachine_returns this now machineId cfg)
    as (this' & E & _ & HT & _).
  rewrite E. simpl. rewrite HT, lookup_insert_eq, Hcfg. simpl.
  by rewrite set_all_fresh.
Qed.

Lemma registerMachine_table_witness :
  transitions (registerMachine 0 "turnstile" turnstile_config constructor).2
    !! "turnstile"
  = Some (flat_entries
            [("locked", [("COIN", Literal "unlocked")]);
             ("unlocked", [("PUSH", Literal "locked")])]).
Proof.
  apply (registerMachine_table constructor 0 "turnstile" turnstile_config).
  - reflexivity.
  - unfold distinct_keys. vm_compute.
    apply NoDup_cons. split; [by intros [?|[]%elem_of_nil]%elem_of_cons|].
    apply NoDup_singleton.
Defined.

(** ** [reset] *)

(** X15: [reset] on a registered machine empties its context and, only
    when [clearHistory] is true, its history; the machine keeps its
    identifier, state definitions and creation time; every other
    machine, all tables and listener lists are as before, and no
    listener is called. *)
Theorem reset_clears this machineId clearHistory m :
  machines this !! machineId = Some m →
  let this' := reset machineId clearHistory this in
  ∃ m',
    machines this' !! machineId = Some m'
    ∧ context m' = ∅
    ∧ history m' = (if default false clearHistory then [] else history m)
    ∧ id m' = id m ∧ states m' = states m ∧ created m' = created m
    ∧ (∀ other, other ≠ machineId →
         machines this' !! other = machines this !! other)
    ∧ transitions this' = transitions this
    ∧ stateCallbacks this' = stateCallbacks this
    ∧ calls this' = calls this.
Proof.
  intros Hm this'. subst this'. unfold reset. rewrite Hm. simpl.
  rewrite lookup_insert_eq. eexists. split; [reflexivity|].
  repeat split; try by destruct (default false clearHistory).
  intros other Hne. by rewrite lookup_insert_ne.
Qed.

Lemma reset_clears_witness :
  let this' := reset "checkout" (Some true) checkout in
  ∃ m',
    machines this' !! "checkout" = Some m'
    ∧ context m' = ∅
    ∧ history m'
      = (if default false (Some true) then [] else history checkout_machine)
    ∧ id m' = id checkout_machine
    ∧ states m' = states checkout_machine
    ∧ created m' = created checkout_machine
    ∧ (∀ other, other ≠ "checkout" →
         machines this' !! other = machines checkout !! other)
    ∧ transitions this' = transitions checkout
    ∧ stateCallbacks this' = stateCallbacks checkout
    ∧ calls this' = calls checkout.
Proof.
  apply (reset_clears checkout "checkout" (Some true) checkout_machine).
  by vm_compute.
Defined.

Lemma set_all_head (entries : list (string * transition)) :
  ∀ key (t : transition) (table : transition_table),
    ∃ t' table', set_all ((key, t) :: table) entries = (key, t') :: table'.
Proof.
  induction entries as [|[k v] rest IH]; intros key t table; simpl.
  - by exists t, table.
  - change (∃ t' table',
      set_all (map_set k v ((key, t) :: table)) rest = (key, t') :: table').
    simpl. destruct (decide (key = k)); apply IH.
Qed.

(** X16: [reset] after [registerMachine] does not return to the
    configured initial state: when the first configured source state has
    a transition and no colon in its label, the machine is put into that
    source state, whatever [initialState] was. *)
Theorem reset_after_register this now machineId cfg clearHistory from event to
    events rest :
  cfg_transitions cfg = Some ((from, (event, to) :: events) :: rest) →
  contains ":" from = false →
  getState machineId
    (reset machineId clearHistory (registerMachine now machineId cfg this).2)
  = Some from.
Proof.
  intros Hcfg Hc.
  destruct (registerMachine_returns this now machineId cfg)
    as (this' & E & HM & HT & _).
  rewrite E. simpl.
  destruct (reset_effect this' machineId clearHistory
              (new_machine now machineId cfg)) as (m' & Hm' & Hs & _).
  { by rewrite HM, lookup_insert_eq. }
  unfold getState. rewrite Hm'. simpl. f_equal. rewrite Hs.
  rewrite HT, lookup_insert_eq, Hcfg. cbn [default].
  set (others :=
         ((fun '(event, to) => (from +:+ ":" +:+ event, to)) <$> events)
           ++ flat_entries rest).
  change (reset_state (Some (set_all [(from +:+ ":" +:+ event, to)] others))
          = from).
  destruct (set_all_head others (from +:+ ":" +:+ event) to [])
    as (t' & table' & ->).
  by apply reset_state_first.
Qed.

Lemma reset_after_register_witness :
  getState "checkout"
    (reset "checkout" None
       (registerMachine 0 "checkout"
          {| cfg_initialState := Some "paid"; cfg_states := None;
             cfg_context := None;
             cfg_transitions :=
               Some [("cart", [("PAY", Handler pay); ("NOTE", Handler note)])] |}
          constructor).2)
  = Some "cart".
Proof.
  apply (reset_after_register constructor 0 "checkout"
           {| cfg_initialState := Some "paid"; cfg_states := None;
              cfg_context := None;
              cfg_transitions :=
                Some [("cart", [("PAY", Handler pay); ("NOTE", Handler note)])] |}
           None "cart" "PAY" (Handler pay) [("NOTE", Handler note)] []);
    reflexivity.
Defined.

(** X17: for a machine registered without transitions, [reset] puts the
    machine into "idle", whatever initial state the configuration
    named. *)
Theorem reset_without_transitions this now machineId cfg clearHistory :
  flat_entries (default [] (cfg_transitions cfg)) = [] →
  getState machineId
    (reset machineId clearHistory (registerMachine now machineId cfg this).2)
  = Some "idle".
Proof.
  intros Hcfg.
  destruct (registerMachine_returns this now machineId cfg)
    as (this' & E & HM & HT & _).
  rewrite E. simpl.
  destruct (reset_effect this' machineId clearHistory
              (new_machine now machineId cfg)) as (m' & Hm' & Hs & _).
  { by rewrite HM, lookup_insert_eq. }
  unfold getState. rewrite Hm'. simpl. f_equal. rewrite Hs.
  by rewrite HT, lookup_insert_eq, Hcfg.
Qed.

Lemma reset_without_transitions_witness :
  getState "m" (reset "m" None (registerMachine 0 "m" bare_config constructor).2)
  = Some "idle".
Proof.
  apply (reset_without_transitions constructor 0 "m" bare_config None).
  reflexivity.
Defined.

(** X18: a second [reset] with the same argument changes nothing. *)
Theorem reset_idempotent this machineId clearHistory :
  reset machineId clearHistory (reset machineId clearHistory this)
  = reset machineId clearHistory this.
Proof.
  unfold reset at 2 3.
  destruct (machines this !! machineId) as [m|] eqn:Hm.
  - unfold reset, with_machines. simpl. rewrite lookup_insert_eq.
    rewrite insert_insert_eq. by destruct (default false clearHistory).
  - unfold reset. by rewrite Hm.
Qed.

(** ** [unregisterMachine] *)

(** X20: after [unregisterMachine] the identifier is unknown to every
    method: the lookups answer null, false and the empty history, [send]
    and [registerTransition] throw, and no table or listener list is
    left behind. *)
Theorem unregisterMachine_forgets this now machineId event payload from t :
  let this' := unregisterMachine machineId this in
  getState machineId this' = None
  ∧ getContext machineId this' = None
  ∧ (∀ state, isInState machineId state this' = false)
  ∧ (∀ limit, getHistory machineId limit this' = [])
  ∧ transitions this' !! machineId = None
  ∧ stateCallbacks this' !! machineId = None
  ∧ send now machineId event payload this'
    = (Throws ("Machine " +:+ machineId +:+ " not found"), this')
  ∧ registerTransition machineId from event t this'
    = (Throws ("Machine " +:+ machineId +:+ " not registered"), this').
Proof.
  intros this'.
  assert (Hm : machines this' !! machineId = None)
    by (subst this'; simpl; apply lookup_delete_eq).
  assert (Ht : transitions this' !! machineId = None)
    by (subst this'; simpl; apply lookup_delete_eq).
  unfold getState, getContext, isInState, getHistory. rewrite Hm.
  repeat split; try done.
  - subst this'; simpl. apply lookup_delete_eq.
  - unfold send, bind, get. by rewrite Hm.
  - by apply registerTransition_unregistered.
Qed.

(** X21: [unregisterMachine] leaves the machine, table and listener list
    of every other identifier as they were, and calling it again changes
    nothing. *)
Theorem unregisterMachine_frame this machineId other :
  other ≠ machineId →
  let this' := unregisterMachine machineId this in
  machines this' !! other = machines this !! other
  ∧ transitions this' !! other = transitions this !! other
  ∧ stateCallbacks this' !! other = stateCallbacks this !! other
  ∧ unregisterMachine machineId this' = this'.
Proof.
  intros Hne this'. subst this'. unfold unregisterMachine. simpl.
  rewrite !lookup_delete_ne by done. repeat split.
  unfold with_stateCallbacks, with_transitions, with_machines. simpl.
  by rewrite !delete_delete_eq.
Qed.

Lemma unregisterMachine_frame_witness :
  is_Some (machines both !! "checkout")
  ∧ machines (unregisterMachine "checkout" both) !! "checkout" = None
  ∧ is_Some (machines both !! "turnstile")
  ∧ let this' := unregisterMachine "checkout" both in
    machines this' !! "turnstile" = machines both !! "turnstile"
    ∧ transitions this' !! "turnstile" = transitions both !! "turnstile"
    ∧ stateCallbacks this' !! "turnstile" = stateCallbacks both !! "turnstile"
    ∧ unregisterMachine "checkout" this' = this'.
Proof.
  split; [by exists (new_machine 3 "checkout" checkout_config)|].
  split; [by vm_compute|].
  split; [by exists turnstile_machine|].
  apply (unregisterMachine_frame both "checkout" "turnstile").
  by vm_compute.
Defined.

(** X22: registering an identifier that an adapter built by its methods
    does not know and unregistering it again gives back the three maps
    the adapter had. *)
Theorem register_unregister this now machineId cfg :
  reachable this →
  machines this !! machineId = None →
  same_maps this
    (unregisterMachine machineId (registerMachine now machineId cfg this).2).
Proof.
  intros Hr Hm.
  destruct (unregistered_has_nothing this machineId Hr Hm) as [Ht Hs].
  destruct (registerMachine_returns this now machineId cfg)
    as (this' & E & HM' & HT' & HS' & _).
  rewrite E. unfold same_maps, unregisterMachine. simpl.
  rewrite HM', HT', HS'. by rewrite !delete_insert_id.
Qed.

Lemma register_unregister_witness :
  same_maps turnstile
    (unregisterMachine "checkout"
       (registerMachine 3 "checkout" checkout_config turnstile).2).
Proof.
  apply (register_unregister turnstile 3 "checkout" checkout_config).
  - by exists [RegisterMachine 0 "turnstile" turnstile_config].
  - by vm_compute.
Defined.

(** ** [onStateChange] and [offStateChange] *)

(** X23: on an adapter built by its methods, [onStateChange] for an
    identifier without a machine registers nothing: the adapter is as
    before, and a later [registerMachine] starts with no listener. *)
Theorem onStateChange_unknown this now machineId callback cfg :
  reachable this →
  machines this !! machineId = None →
  onStateChange machineId callback this = this
  ∧ stateCallbacks
      (registerMachine now machineId cfg
         (onStateChange machineId callback this)).2 !! machineId
    = Some [].
Proof.
  intros Hr Hm.
  destruct (unregistered_has_nothing this machineId Hr Hm) as [_ Hs].
  assert (E0 : onStateChange machineId callback this = this)
    by (unfold onStateChange; by rewrite Hs).
  rewrite E0. split; [done|].
  destruct (registerMachine_returns this now machineId cfg)
    as (this' & E & _ & _ & HS & _).
  rewrite E. simpl. by rewrite HS, lookup_insert_eq.
Qed.

Lemma onStateChange_unknown_witness :
  onStateChange "checkout" boom turnstile = turnstile
  ∧ stateCallbacks
      (registerMachine 3 "checkout" checkout_config
         (onStateChange "checkout" boom turnstile)).2 !! "checkout"
    = Some [].
Proof.
  apply (onStateChange_unknown turnstile 3 "checkout" boom checkout_config).
  - by exists [RegisterMachine 0 "turnstile" turnstile_config].
  - by vm_compute.
Defined.

Lemma remove_first_split callback (pre post : list listener) found :
  unlisted callback pre →
  l_ref found = l_ref callback →
  remove_first callback (pre ++ found :: post) = pre ++ post.
Proof.
  intros Hpre Hf. induction Hpre as [|cb pre Hcb _ IH]; simpl.
  - by rewrite decide_True.
  - rewrite decide_False by done. by rewrite IH.
Qed.

Lemma remove_first_unlisted callback (callbacks : list listener) :
  unlisted callback callbacks → remove_first callback callbacks = callbacks.
Proof.
  intros H. induction H as [|cb rest Hcb _ IH]; simpl; [done|].
  rewrite decide_False by done. by rewrite IH.
Qed.

(** X24: [offStateChange] removes the first registration of the callback
    and nothing else: the listeners before it and after it keep their
    places, later registrations of the same callback included. *)
Theorem offStateChange_first this machineId callback pre found post :
  stateCallbacks this !! machineId = Some (pre ++ found :: post) →
  unlisted callback pre →
  l_ref found = l_ref callback →
  stateCallbacks (offStateChange machineId callback this) !! machineId
  = Some (pre ++ post).
Proof.
  intros Hs Hpre Hf. unfold offStateChange. rewrite Hs. simpl.
  rewrite lookup_insert_eq. f_equal. by apply remove_first_split.
Qed.

Lemma offStateChange_first_witness :
  stateCallbacks (offStateChange "turnstile" quiet watched) !! "turnstile"
  = Some ([boom] ++ []).
Proof.
  apply (offStateChange_first watched "turnstile" quiet [boom] quiet []).
  - by vm_compute.
  - apply Forall_cons. split; [by vm_compute|apply Forall_nil_2].
  - reflexivity.
Defined.

(** X25: [offStateChange] for a callback that is not among the listeners
    of the machine leaves all listener lists as they are. *)
Theorem offStateChange_absent this machineId callback callbacks :
  stateCallbacks this !! machineId = Some callbacks →
  unlisted callback callbacks →
  stateCallbacks (offStateChange machineId callback this)
  = stateCallbacks this.
Proof.
  intros Hs Hu. unfold offStateChange. rewrite Hs. simpl.
  rewrite remove_first_unlisted by done. by apply insert_id.
Qed.

Lemma offStateChange_absent_witness :
  stateCallbacks (offStateChange "turnstile" third watched)
  = stateCallbacks watched.
Proof.
  apply (offStateChange_absent watched "turnstile" third [boom; quiet]).
  - by vm_compute.
  - repeat (apply Forall_cons; split; [by vm_compute|]). apply Forall_nil_2.
Defined.

(** X26: registering a callback that is not yet among the listeners and
    removing it again gives back the listener list: the listeners that
    were there keep their order. *)
Theorem on_off_round_trip this machineId callback callbacks :
  stateCallbacks this !! machineId = Some callbacks →
  unlisted callback callbacks →
  stateCallbacks
    (offStateChange machineId callback (onStateChange machineId callback this))
  = stateCallbacks this.
Proof.
  intros Hs Hu. unfold onStateChange. rewrite Hs.
  unfold offStateChange. simpl. rewrite lookup_insert_eq. simpl.
  rewrite (remove_first_split callback callbacks [] callback Hu eq_refl).
  rewrite app_nil_r, insert_insert_eq. by apply insert_id.
Qed.

Lemma on_off_round_trip_witness :
  stateCallbacks (onStateChange "turnstile" third watched) !! "turnstile"
  = Some [boom; quiet; third]
  ∧ stateCallbacks
      (offStateChange "turnstile" third
         (onStateChange "turnstile" third watched))
    = stateCallbacks watched.
Proof.
  split; [by vm_compute|].
  apply (on_off_round_trip watched "turnstile" third [boom; quiet]).
  - by vm_compute.
  - repeat (apply Forall_cons; split; [by vm_compute|]). apply Forall_nil_2.
Defined.

(** ** [getHistory]: limits of every sign *)

Lemma getHistory_positive_witness :
  getHistory "loop" (Some (Z.of_nat 2)) (run (loop_calls 3) constructor)
  = last_n 2 (history (loop_machine [loop_entry 1; loop_entry 2; loop_entry 3]))
  ∧ length (getHistory "loop" (Some (Z.of_nat 2)) (run (loop_calls 3) constructor))
    = min 2 (length (history (loop_machine
                                [loop_entry 1; loop_entry 2; loop_entry 3]))).
Proof.
  apply (getHistory_positive (run (loop_calls 3) constructor) "loop"
           (loop_machine [loop_entry 1; loop_entry 2; loop_entry 3]) 2).
  - by vm_compute.
  - lia.
Defined.

(** X27: a limit that is zero or negative does not give an empty
    result: [getHistory(id, -k)] returns the history without its first k
    entries, so the whole history for 0. *)
Theorem getHistory_nonpositive this machineId m (k : nat) :
  machines this !! machineId = Some m →
  getHistory machineId (Some (- Z.of_nat k)%Z) this = drop k (history m).
Proof.
  intros Hm. unfold getHistory. rewrite Hm. cbv zeta.
  change (default 10%Z (Some (- Z.of_nat k)%Z)) with (- Z.of_nat k)%Z.
  rewrite Z.opp_involutive. unfold slice_from.
  destruct (Z.ltb_spec (Z.of_nat k) 0) as [H|_]; [lia|].
  destruct (decide (k ≤ length (history m))) as [Hle|Hgt].
  - f_equal. lia.
  - rewrite !drop_ge by lia. done.
Qed.

Lemma getHistory_nonpositive_witness :
  getHistory "loop" (Some (- Z.of_nat 1)%Z) (run (loop_calls 3) constructor)
  = drop 1 (history (loop_machine [loop_entry 1; loop_entry 2; loop_entry 3])).
Proof.
  apply (getHistory_nonpositive (run (loop_calls 3) constructor) "loop"
           (loop_machine [loop_entry 1; loop_entry 2; loop_entry 3]) 1).
  by vm_compute.
Defined.

(** X28: on an adapter built by its methods, whatever the limit,
    [getHistory] returns an end piece of the machine's history, of at
    most 100 entries; and with the limit omitted, of at most 10. *)
Theorem getHistory_bounded this machineId m limit :
  reachable this →
  machines this !! machineId = Some m →
  getHistory machineId limit this `suffix_of` history m
  ∧ length (getHistory machineId limit this) ≤ 100
  ∧ length (getHistory machineId None this) ≤ 10.
Proof.
  intros Hr Hm. pose proof (reachable_bounded this Hr machineId m Hm) as Hb.
  unfold getHistory. rewrite Hm. unfold slice_from.
  split; [apply suffix_drop|]. rewrite !length_drop.
  split; [etransitivity; [apply Nat.le_sub_l|exact Hb]|].
  cbv zeta. change (default 10%Z None) with 10%Z.
  destruct (Z.ltb_spec (- (10)) 0); lia.
Qed.

Lemma getHistory_bounded_witness :
  getHistory "loop" (Some 0%Z) (run (loop_calls 3) constructor)
    `suffix_of` history (loop_machine [loop_entry 1; loop_entry 2; loop_entry 3])
  ∧ length (getHistory "loop" (Some 0%Z) (run (loop_calls 3) constructor)) ≤ 100
  ∧ length (getHistory "loop" None (run (loop_calls 3) constructor)) ≤ 10.
Proof.
  apply (getHistory_bounded (run (loop_calls 3) constructor) "loop"
           (loop_machine [loop_entry 1; loop_entry 2; loop_entry 3]) (Some 0%Z)).
  - by exists (loop_calls 3).
  - by vm_compute.
Defined.

(** ** [updateContext] and the notification of handlers *)

(** X29: two [updateContext] calls in a row amount to one call with the
    second patch laid over the first. *)
Theorem updateContext_twice this machineId (first second : object) :
  updateContext machineId second (updateContext machineId first this)
  = updateContext machineId (spread first second) this.
Proof.
  unfold updateContext at 2 3.
  destruct (machines this !! machineId) as [m|] eqn:Hm.
  - unfold updateContext, with_machines. simpl. rewrite lookup_insert_eq.
    rewrite insert_insert_eq. unfold set_context, spread. simpl.
    by rewrite (assoc_L (∪)).
  - unfold updateContext. by rewrite Hm.
Qed.

(** X30: the notification of a handler transition is the five-property
    object with the handler's [data] laid over it: a property of the
    data replaces the standard property of the same name, and every
    listener of the machine is called with that object. *)
Theorem send_handler_notification this now machineId event payload m table h
    result :
  machines this !! machineId = Some m →
  transitions this !! machineId = Some table →
  map_get (currentState m +:+ ":" +:+ event) table = Some (Handler h) →
  h (context m) (or_null payload) = Returns (Result result) →
  ∃ r this' m' changeData,
    send now machineId event payload this = (Returns r, this')
    ∧ machines this' !! machineId = Some m'
    ∧ calls this'
      = calls this
          ++ invocations changeData
               (default [] (stateCallbacks this !! machineId))
    ∧ merged
        (plain_change (currentState m) (currentState m') event
           (or_null payload) (context m'))
        (default ∅ (r_data result)) changeData.
Proof.
  intros Hm Ht Hk Hh.
  rewrite (send_registered this now machineId event payload m table Hm Ht).
  rewrite Hk, Hh.
  run_execute as (this' & E & HM & _ & _ & HC & _).
  rewrite E. eexists _, this', _, _. split; [reflexivity|].
  rewrite HM, lookup_insert_eq. split; [reflexivity|].
  split; [exact HC|]. simpl. apply spread_merged.
Qed.

Lemma send_handler_notification_witness :
  ∃ r this' m' changeData,
    send 1 "order" "TAG" VNull tagged = (Returns r, this')
    ∧ machines this' !! "order" = Some m'
    ∧ calls this'
      = calls tagged
          ++ invocations changeData
               (default [] (stateCallbacks tagged !! "order"))
    ∧ merged
        (plain_change "cart" (currentState m') "TAG" (or_null VNull)
           (context m'))
        (default ∅ (r_data {| r_state := Some "paid";
                              r_context := None;
                              r_data := Some (<["event" := VStr "TAGGED"]>
                                                {["note" := VNum 7]}) |}))
        changeData.
Proof.
  apply (send_handler_notification tagged 1 "order" "TAG" VNull
           tagged_machine [("cart:TAG", Handler tag)] tag
           {| r_state := Some "paid"; r_context := None;
              r_data := Some (<["event" := VStr "TAGGED"]>
                                {["note" := VNum 7]}) |}); by vm_compute.
Defined.

(** Both listeners of the order are called, the throwing one first, with
    the event the handler's data names and with its added property. *)
Example tagged_notification :
  let after := (send 1 "order" "TAG" VNull tagged).2 in
  stateCallbacks tagged !! "order" = Some [boom; quiet]
  ∧ fst <$> calls after = [1; 2]
  ∧ (fun call => call.2 !! "event") <$> calls after
    = [Some (VStr "TAGGED"); Some (VStr "TAGGED")]
  ∧ (fun call => call.2 !! "note") <$> calls after
    = [Some (VNum 7); Some (VNum 7)]
  ∧ (fun call => call.2 !! "toState") <$> calls after
    = [Some (VStr "paid"); Some (VStr "paid")].
Proof. by vm_compute. Qed.
